(** * micrologger: a shallow embedding of [micrologger/core.py]

    The development follows the layout of the Python module:

    - [Json]    the values [ujson] reads and writes, with its serialiser and
                parser (the module [ujson] is MicroPython's, not the
                repository's; it is modelled here so that the logger can be
                run on concrete file contents);
    - [Py]      the small state-and-exception monad in which the methods of
                [Logger] run: a file system, the standard output, the clock
                and an oracle that decides which I/O calls fail;
    - [Logger]  the class itself, method by method;
    - [Pipeline] the notions the properties are stated with: the six entry
                points as one operation, the stages of a call, rotation, runs
                of calls;
    - [Behaviour] the notions of the further properties;
    - [JsonFacts] what [ujson] writes, it reads back;
    - [Properties] the properties of the emission pipeline;
    - [Coverage] further properties of the methods: level names, construction,
                timestamps, what a call touches and what it can raise. *)

From Stdlib Require Import ZArith NArith List Ascii String Bool Lia.
From Stdlib Require Import Decimal DecimalN DecimalPos.
From stdpp Require Import base option list gmap strings.

Import ListNotations.
Local Open Scope Z_scope.

(* ===================================================================== *)
(** * JSON values and the [ujson] codec *)
(* ===================================================================== *)

Module Json.

Local Open Scope char_scope.
Local Open Scope list_scope.

(** The Python objects [ujson.load] can return.  A [dict] is kept as the list
    of its items in the order they were inserted or read; a number with a
    fraction or an exponent is kept as the decimal [m * 10^e]. *)
#[local] Set Warnings "-register-all".
Inductive value : Type :=
| VNone
| VBool (b : bool)
| VInt (z : Z)
| VFloat (m e : Z)
| VStr (s : string)
| VList (l : list value)
| VDict (d : list (string * value)).

(** [d[k]]: the item inserted last wins, as with a Python dict. *)
Fixpoint dict_get (k : string) (d : list (string * value)) : option value :=
  match d with
  | [] => None
  | (k', v) :: d' =>
      match dict_get k d' with
      | Some v' => Some v'
      | None => if String.eqb k k' then Some v else None
      end
  end.

(** Nesting depth, the measure the parser's fuel is compared with. *)
Fixpoint depth (v : value) : nat :=
  match v with
  | VList l => S (fold_right (fun x n => Nat.max (depth x) n) O l)
  | VDict d => S (fold_right (fun kv n => Nat.max (depth (snd kv)) n) O d)
  | _ => O
  end.

(** ** Numbers *)

Fixpoint uint_chars (u : Decimal.uint) : list ascii :=
  match u with
  | Nil => []
  | D0 u => "0" :: uint_chars u
  | D1 u => "1" :: uint_chars u
  | D2 u => "2" :: uint_chars u
  | D3 u => "3" :: uint_chars u
  | D4 u => "4" :: uint_chars u
  | D5 u => "5" :: uint_chars u
  | D6 u => "6" :: uint_chars u
  | D7 u => "7" :: uint_chars u
  | D8 u => "8" :: uint_chars u
  | D9 u => "9" :: uint_chars u
  end.

Definition nat_chars (n : N) : list ascii := uint_chars (N.to_uint n).

Definition int_chars (z : Z) : list ascii :=
  if (z <? 0)%Z then "-" :: nat_chars (Z.abs_N z) else nat_chars (Z.abs_N z).

Definition is_digit (c : ascii) : bool :=
  match c with
  | "0" | "1" | "2" | "3" | "4" | "5" | "6" | "7" | "8" | "9" => true
  | _ => false
  end.

(** The longest run of digits at the head of [s], and what follows it. *)
Fixpoint read_uint (s : list ascii) : Decimal.uint * list ascii :=
  match s with
  | [] => (Nil, [])
  | c :: r =>
      let k (d : Decimal.uint -> Decimal.uint) :=
        let (u, r') := read_uint r in (d u, r') in
      match c with
      | "0" => k D0 | "1" => k D1 | "2" => k D2 | "3" => k D3 | "4" => k D4
      | "5" => k D5 | "6" => k D6 | "7" => k D7 | "8" => k D8 | "9" => k D9
      | _ => (Nil, s)
      end
  end.

(** One or more digits. *)
Definition read_digits (s : list ascii) : option (Decimal.uint * list ascii) :=
  match read_uint s with
  | (Nil, _) => None
  | (u, r) => Some (u, r)
  end.

Definition apply_sign (neg : bool) (n : N) : Z :=
  if neg then - Z.of_N n else Z.of_N n.

(** An optional sign; [+] is a sign in an exponent only. *)
Definition read_sign (plus : bool) (s : list ascii) : bool * list ascii :=
  match s with
  | "-" :: r => (true, r)
  | "+" :: r => if plus then (false, r) else (false, s)
  | _ => (false, s)
  end.

(** [e] or [E], an optional sign, digits. *)
Definition read_exponent (s : list ascii) : option (option Z * list ascii) :=
  match s with
  | c :: r =>
      if orb (Ascii.eqb c "e") (Ascii.eqb c "E") then
        let '(neg, r1) := read_sign true r in
        match read_digits r1 with
        | Some (u, r2) => Some (Some (apply_sign neg (N.of_uint u)), r2)
        | None => None
        end
      else Some (None, s)
  | [] => Some (None, s)
  end.

(** An optional [-], digits, an optional fraction, an optional exponent.
    Without fraction and exponent the number is an [int]. *)
Definition parse_number (s : list ascii) : option (value * list ascii) :=
  let '(neg, s1) := read_sign false s in
  match read_digits s1 with
  | None => None
  | Some (ip, s2) =>
      match s2 with
      | "." :: s3 =>
          match read_digits s3 with
          | None => None
          | Some (fp, s4) =>
              let m := apply_sign neg (N.of_uint (Decimal.app ip fp)) in
              let shift := Z.of_nat (Decimal.nb_digits fp) in
              match read_exponent s4 with
              | Some (Some e, s5) => Some (VFloat m (e - shift), s5)
              | Some (None, s5) => Some (VFloat m (- shift), s5)
              | None => None
              end
          end
      | _ =>
          match read_exponent s2 with
          | Some (Some e, s5) => Some (VFloat (apply_sign neg (N.of_uint ip)) e, s5)
          | Some (None, s5) => Some (VInt (apply_sign neg (N.of_uint ip)), s5)
          | None => None
          end
      end
  end.

(** ** Strings *)

Definition hex_char (n : N) : ascii :=
  match n with
  | 0%N => "0" | 1%N => "1" | 2%N => "2" | 3%N => "3" | 4%N => "4"
  | 5%N => "5" | 6%N => "6" | 7%N => "7" | 8%N => "8" | 9%N => "9"
  | 10%N => "a" | 11%N => "b" | 12%N => "c" | 13%N => "d" | 14%N => "e"
  | _ => "f"
  end.

Definition hex_val (c : ascii) : option N :=
  match c with
  | "0" => Some 0%N | "1" => Some 1%N | "2" => Some 2%N | "3" => Some 3%N
  | "4" => Some 4%N | "5" => Some 5%N | "6" => Some 6%N | "7" => Some 7%N
  | "8" => Some 8%N | "9" => Some 9%N
  | "a" | "A" => Some 10%N | "b" | "B" => Some 11%N | "c" | "C" => Some 12%N
  | "d" | "D" => Some 13%N | "e" | "E" => Some 14%N | "f" | "F" => Some 15%N
  | _ => None
  end.

(** The characters a string is written with, between its quotes. *)
Definition escape_char (c : ascii) : list ascii :=
  match c with
  | "034" => ["092"; "034"]
  | "092" => ["092"; "092"]
  | "010" => ["092"; "n"]
  | "013" => ["092"; "r"]
  | "009" => ["092"; "t"]
  | _ =>
      let n := N_of_ascii c in
      if (n <? 32)%N
      then ["092"; "u"; "0"; "0"; hex_char (n / 16)%N; hex_char (n mod 16)%N]
      else [c]
  end.

Fixpoint escape (s : string) : list ascii :=
  match s with
  | EmptyString => []
  | String c s' => escape_char c ++ escape s'
  end.

Definition quote (s : string) : list ascii := "034" :: escape s ++ ["034"].

(** The UTF-8 bytes of the code point of a [\uXXXX] escape. *)
Definition utf8 (n : N) (k : string) : string :=
  if (n <? 128)%N then String (ascii_of_N n) k
  else if (n <? 2048)%N then
    String (ascii_of_N (192 + n / 64)) (String (ascii_of_N (128 + n mod 64)) k)
  else
    String (ascii_of_N (224 + n / 4096))
      (String (ascii_of_N (128 + (n / 64) mod 64))
         (String (ascii_of_N (128 + n mod 64)) k)).

(** The body of a string literal, after the opening quote. *)
Fixpoint parse_string (s : list ascii) : option (string * list ascii) :=
  let k (c : ascii) (r : list ascii) :=
    match parse_string r with
    | Some (t, r') => Some (String c t, r')
    | None => None
    end in
  match s with
  | [] => None
  | "034" :: r => Some (EmptyString, r)
  | "092" :: "034" :: r => k "034" r
  | "092" :: "092" :: r => k "092" r
  | "092" :: "/" :: r => k "/" r
  | "092" :: "b" :: r => k "008" r
  | "092" :: "f" :: r => k "012" r
  | "092" :: "n" :: r => k "010" r
  | "092" :: "r" :: r => k "013" r
  | "092" :: "t" :: r => k "009" r
  | "092" :: "u" :: a :: b :: c :: d :: r =>
      match hex_val a, hex_val b, hex_val c, hex_val d with
      | Some a, Some b, Some c, Some d =>
          match parse_string r with
          | Some (t, r') => Some (utf8 (((a * 16 + b) * 16 + c) * 16 + d)%N t, r')
          | None => None
          end
      | _, _, _, _ => None
      end
  | "092" :: _ => None
  | c :: r => k c r
  end.

(** ** Values *)

Fixpoint sep_concat (sep : list ascii) (parts : list (list ascii)) : list ascii :=
  match parts with
  | [] => []
  | [p] => p
  | p :: ps => p ++ sep ++ sep_concat sep ps
  end.

(** [ujson.dump]: the text written for a value. *)
Fixpoint dump_chars (v : value) : list ascii :=
  match v with
  | VNone => ["n"; "u"; "l"; "l"]
  | VBool true => ["t"; "r"; "u"; "e"]
  | VBool false => ["f"; "a"; "l"; "s"; "e"]
  | VInt z => int_chars z
  | VFloat m e => int_chars m ++ "e" :: int_chars e
  | VStr s => quote s
  | VList l => "[" :: sep_concat [","; " "] (map dump_chars l) ++ ["]"]
  | VDict d =>
      "{" :: sep_concat [","; " "]
               (map (fun kv => quote (fst kv) ++ ":" :: " " :: dump_chars (snd kv)) d)
          ++ ["}"]
  end.

Definition is_ws (c : ascii) : bool :=
  match c with
  | " " | "009" | "010" | "013" => true
  | _ => false
  end.

Fixpoint skip_ws (s : list ascii) : list ascii :=
  match s with
  | c :: r => if is_ws c then skip_ws r else s
  | [] => []
  end.

Section Items.
Context {A : Type} (item : list ascii -> option (A * list ascii)) (close : ascii).

(** Items separated by commas up to the closing bracket; [k] bounds their
    number. *)
Fixpoint parse_items (k : nat) (s : list ascii) : option (list A * list ascii) :=
  match k with
  | O => None
  | S k' =>
      match item s with
      | None => None
      | Some (x, r) =>
          match skip_ws r with
          | c :: r' =>
              if Ascii.eqb c close then Some ([x], r')
              else if Ascii.eqb c "," then
                match parse_items k' r' with
                | Some (xs, r'') => Some (x :: xs, r'')
                | None => None
                end
              else None
          | [] => None
          end
      end
  end.

(** A bracketed sequence, after its opening bracket. *)
Definition parse_seq (s : list ascii) : option (list A * list ascii) :=
  match skip_ws s with
  | c :: r => if Ascii.eqb c close then Some ([], r) else parse_items (length s) s
  | [] => None
  end.
End Items.

(** One [key: value] item of an object. *)
Definition parse_member (pv : list ascii -> option (value * list ascii))
    (s : list ascii) : option ((string * value) * list ascii) :=
  match skip_ws s with
  | "034" :: r =>
      match parse_string r with
      | Some (k, r1) =>
          match skip_ws r1 with
          | ":" :: r2 =>
              match pv r2 with
              | Some (v, r3) => Some ((k, v), r3)
              | None => None
              end
          | _ => None
          end
      | None => None
      end
  | _ => None
  end.

(** A value at the head of [s]; [fuel] bounds the nesting. *)
Fixpoint parse_value (fuel : nat) (s : list ascii) : option (value * list ascii) :=
  match fuel with
  | O => None
  | S n =>
      match skip_ws s with
      | "n" :: "u" :: "l" :: "l" :: r => Some (VNone, r)
      | "t" :: "r" :: "u" :: "e" :: r => Some (VBool true, r)
      | "f" :: "a" :: "l" :: "s" :: "e" :: r => Some (VBool false, r)
      | "034" :: r =>
          match parse_string r with
          | Some (t, r') => Some (VStr t, r')
          | None => None
          end
      | "[" :: r =>
          match parse_seq (parse_value n) "]" r with
          | Some (l, r') => Some (VList l, r')
          | None => None
          end
      | "{" :: r =>
          match parse_seq (parse_member (parse_value n)) "}" r with
          | Some (d, r') => Some (VDict d, r')
          | None => None
          end
      | s' => parse_number s'
      end
  end.

(** [ujson.load] on the text of a file: [None] stands for [ValueError]. *)
Definition loads (s : string) : option value :=
  let cs := list_ascii_of_string s in
  match parse_value (S (length cs)) cs with
  | Some (v, r) => match skip_ws r with [] => Some v | _ => None end
  | None => None
  end.

Definition dumps (v : value) : string := string_of_list_ascii (dump_chars v).

(** ** What the proofs about the grammar speak of *)

(** What may follow a number for it to be read whole. *)
Definition ends_number (s : list ascii) : bool :=
  match s with
  | [] => true
  | c :: _ =>
      negb (is_digit c || Ascii.eqb c "." || Ascii.eqb c "e" || Ascii.eqb c "E")
  end.

Definition no_digit (s : list ascii) : bool :=
  match s with [] => true | c :: _ => negb (is_digit c) end.

(** The first character of a written value. *)
Definition value_start (c : ascii) : bool :=
  is_digit c ||
  match c with
  | "-" | "n" | "t" | "f" | "034" | "[" | "{" => true
  | _ => false
  end.

(** What follows an item of a sequence: a comma or the closing bracket. *)
Definition follows (close : ascii) (s : list ascii) : Prop :=
  match s with
  | c :: _ => c = "," \/ c = close
  | [] => False
  end.

End Json.

(* ===================================================================== *)
(** * The interpreter's side: files, console, clock, exceptions *)
(* ===================================================================== *)

Module Py.

(** The exceptions the module can meet. [OSError] carries the text that
    [str(e)] gives. *)
Inductive exn : Type :=
| OSError (msg : string)
| ValueError
| AttributeError
| KeyError.

Inductive result (A : Type) : Type :=
| Return (a : A)
| Raise (e : exn).
Arguments Return {A} a.
Arguments Raise {A} e.

(** The first six fields of [time.localtime()]. *)
Record localtime : Type := {
  tm_year : N; tm_mon : N; tm_mday : N;
  tm_hour : N; tm_min : N; tm_sec : N
}.

Definition epoch : localtime :=
  {| tm_year := 2000; tm_mon := 1; tm_mday := 1;
     tm_hour := 0; tm_min := 0; tm_sec := 0 |}.

(** The world a method runs in.
    - [files]: the file system, a path mapped to the text of its file;
    - [stdout]: the lines [print] has written, oldest first;
    - [clock]: the readings the next calls of [time.localtime()] return;
    - [faults]: an oracle with one entry per I/O call still to come, in
      order; [Some msg] makes the call raise [OSError(msg)].  Calls beyond
      the end of the list succeed. *)
Record world : Type := {
  files : gmap string string;
  stdout : list string;
  clock : list localtime;
  faults : list (option string)
}.

Definition set_files (f : gmap string string) (w : world) : world :=
  {| files := f; stdout := stdout w; clock := clock w; faults := faults w |}.
Definition set_stdout (o : list string) (w : world) : world :=
  {| files := files w; stdout := o; clock := clock w; faults := faults w |}.
Definition set_clock (c : list localtime) (w : world) : world :=
  {| files := files w; stdout := stdout w; clock := c; faults := faults w |}.
Definition set_faults (f : list (option string)) (w : world) : world :=
  {| files := files w; stdout := stdout w; clock := clock w; faults := f |}.

(** A computation: it returns or raises, and leaves a world. *)
Definition M (A : Type) : Type := world -> result A * world.

Definition ret {A : Type} (a : A) : M A := fun w => (Return a, w).
Definition raise {A : Type} (e : exn) : M A := fun w => (Raise e, w).

Definition bind {A B : Type} (m : M A) (k : A -> M B) : M B :=
  fun w =>
    match m w with
    | (Return a, w') => k a w'
    | (Raise e, w') => (Raise e, w')
    end.

(** [try: m  except ...: h]: [h e] is the handler of the clause that
    matches [e], if one does. *)
Definition try_except {A : Type} (m : M A) (h : exn -> option (M A)) : M A :=
  fun w =>
    match m w with
    | (Return a, w') => (Return a, w')
    | (Raise e, w') =>
        match h e with
        | Some handler => handler w'
        | None => (Raise e, w')
        end
    end.

Declare Scope py_scope.
Delimit Scope py_scope with py.
Notation "x <- m ;; k" := (bind m (fun x => k))
  (at level 100, m at next level, right associativity) : py_scope.
Notation "m ;; k" := (bind m (fun _ => k))
  (at level 100, right associativity) : py_scope.
Local Open Scope py_scope.

(** ** Primitives *)

(** Every I/O call asks the oracle first. *)
Definition io : M unit :=
  fun w =>
    match faults w with
    | [] => (Return tt, w)
    | None :: rest => (Return tt, set_faults rest w)
    | Some msg :: rest => (Raise (OSError msg), set_faults rest w)
    end.

Definition ENOENT : string := "[Errno 2] ENOENT".

(** [open(path, "r")]: the text the handle will read. *)
Definition open_r (path : string) : M string :=
  io ;;
  fun w =>
    match files w !! path with
    | Some text => (Return text, w)
    | None => (Raise (OSError ENOENT), w)
    end.

(** [f.seek(0, 2); f.tell()] on a handle opened for reading. *)
Definition seek_end_tell (text : string) : M Z :=
  io ;; ret (Z.of_nat (String.length text)).

(** [ujson.load(f)] on a handle opened for reading. *)
Definition ujson_load (text : string) : M Json.value :=
  io ;;
  match Json.loads text with
  | Some v => ret v
  | None => raise ValueError
  end.

(** [open(path, "w")]: the file is created or emptied. *)
Definition open_w (path : string) : M unit :=
  io ;; fun w => (Return tt, set_files (<[path := EmptyString]> (files w)) w).

(** [f.write(text)] on a handle opened for writing; a write that fails
    writes nothing. *)
Definition write (path : string) (text : string) : M unit :=
  io ;;
  fun w =>
    let old := default EmptyString (files w !! path) in
    (Return tt, set_files (<[path := old +:+ text]> (files w)) w).

(** [ujson.dump(v, f)]. *)
Definition ujson_dump (v : Json.value) (path : string) : M unit :=
  write path (Json.dumps v).

(** [os.rename(src, dst)]: [dst] is replaced if it exists. *)
Definition rename (src dst : string) : M unit :=
  io ;;
  fun w =>
    match files w !! src with
    | Some text => (Return tt, set_files (<[dst := text]> (delete src (files w))) w)
    | None => (Raise (OSError ENOENT), w)
    end.

Definition print (line : string) : M unit :=
  fun w => (Return tt, set_stdout (stdout w ++ [line]) w).

Definition time_localtime : M localtime :=
  fun w =>
    match clock w with
    | [] => (Return epoch, w)
    | t :: rest => (Return t, set_clock rest w)
    end.

(** [logs.append(x)]: only a list has the method. *)
Definition append (logs x : Json.value) : M Json.value :=
  match logs with
  | Json.VList l => ret (Json.VList (l ++ [x]))
  | _ => raise AttributeError
  end.

End Py.

(* ===================================================================== *)
(** * [class Logger] *)
(* ===================================================================== *)

Module Logger.
Import Json Py.
Local Open Scope py_scope.
Local Open Scope string_scope.

(** ** Class attributes *)

Definition LEVELS : list (string * Z) :=
  [("DEBUG", 0); ("INFO", 1); ("WARNING", 2); ("ERROR", 3); ("CRITICAL", 4);
   ("TRACE", -1)].

Definition ESC : ascii := "027"%char.

(** The line feed that ends each line the logger writes itself. *)
Definition nl : string := String "010"%char EmptyString.

Definition COLORS : list (string * string) :=
  [("DEBUG", String ESC "[94m");
   ("INFO", String ESC "[92m");
   ("WARNING", String ESC "[93m");
   ("ERROR", String ESC "[91m");
   ("CRITICAL", String ESC "[41m");
   ("TRACE", String ESC "[37m");
   ("RESET", String ESC "[0m")].

(** [d.get(k)] on a class dictionary. *)
Fixpoint lookup_key {A : Type} (k : string) (d : list (string * A)) : option A :=
  match d with
  | [] => None
  | (k', a) :: d' => if String.eqb k k' then Some a else lookup_key k d'
  end.

(** [d[k]]. *)
Definition item {A : Type} (d : list (string * A)) (k : string) : M A :=
  match lookup_key k d with
  | Some a => ret a
  | None => raise KeyError
  end.

(** [s.upper()]. *)
Definition upper_char (c : ascii) : ascii :=
  let n := N_of_ascii c in
  if ((97 <=? n) && (n <=? 122))%N then ascii_of_N (n - 32) else c.

Fixpoint upper (s : string) : string :=
  match s with
  | EmptyString => EmptyString
  | String c s' => String (upper_char c) (upper s')
  end.

(** ** Instance attributes *)

(** [current_level] holds an [int], or [float("inf")] after [disable]. *)
Inductive threshold : Type :=
| Finite (z : Z)
| Infinity.

(** [rank >= current_level]. *)
Definition reaches (rank : Z) (t : threshold) : bool :=
  match t with
  | Finite z => (z <=? rank)%Z
  | Infinity => false
  end.

Record Logger : Type := {
  current_level : threshold;
  log_to_console : bool;
  log_to_file : bool;
  file_name : string;
  max_file_size : Z;
  use_colors : bool;
  log_format : string
}.

Definition set_current_level (t : threshold) (self : Logger) : Logger :=
  {| current_level := t;
     log_to_console := log_to_console self;
     log_to_file := log_to_file self;
     file_name := file_name self;
     max_file_size := max_file_size self;
     use_colors := use_colors self;
     log_format := log_format self |}.

(** ** Methods *)

Definition __init__ (level : string) (log_to_console log_to_file : bool)
    (file_name : string) (max_file_size : Z) (use_colors : bool)
    (log_format : string) : M Logger :=
  let self :=
    {| current_level := Finite (default 1%Z (lookup_key (upper level) LEVELS));
       log_to_console := log_to_console;
       log_to_file := log_to_file;
       file_name := file_name;
       max_file_size := max_file_size;
       use_colors := use_colors;
       log_format := log_format |} in
  (if log_to_file then
     if String.eqb log_format "json" then
       try_except
         (open_w file_name ;; ujson_dump (VList []) file_name)
         (fun e =>
            match e with
            | OSError msg => Some (print ("Error initializing log file: " +:+ msg))
            | _ => None
            end)
     else
       (open_w file_name ;; write file_name ("Logger initialized." +:+ nl))
   else ret tt) ;;
  ret self.

Definition set_level (self : Logger) (level : string) : Logger :=
  set_current_level (Finite (default 1%Z (lookup_key (upper level) LEVELS))) self.

(** [{:0Nd}] on a number that is not negative. *)
Definition zero_padded (width : nat) (n : N) : string :=
  let digits := string_of_list_ascii (nat_chars n) in
  string_of_list_ascii (repeat "0"%char (width - String.length digits)) +:+ digits.

Definition _format_timestamp : M string :=
  current_time <- time_localtime ;;
  ret (zero_padded 4 (tm_year current_time) +:+ "-" +:+
       zero_padded 2 (tm_mon current_time) +:+ "-" +:+
       zero_padded 2 (tm_mday current_time) +:+ " " +:+
       zero_padded 2 (tm_hour current_time) +:+ ":" +:+
       zero_padded 2 (tm_min current_time) +:+ ":" +:+
       zero_padded 2 (tm_sec current_time)).

Definition _rotate_file (self : Logger) : M unit :=
  if (max_file_size self >? 0)%Z then
    try_except
      (f <- open_r (file_name self) ;;
       file_size <- seek_end_tell f ;;
       if (file_size >? max_file_size self)%Z then
         rename (file_name self) (file_name self +:+ ".old") ;;
         open_w (file_name self) ;;
         if String.eqb (log_format self) "json"
         then ujson_dump (VList []) (file_name self)
         else write (file_name self) ("Log rotated." +:+ nl)
       else ret tt)
      (fun e => match e with OSError _ => Some (ret tt) | _ => None end)
  else ret tt.

Definition _log (self : Logger) (level message : string) : M unit :=
  rank <- item LEVELS level ;;
  if reaches rank (current_level self) then
    timestamp <- _format_timestamp ;;
    let log_message :=
      [("timestamp", VStr timestamp); ("level", VStr level);
       ("message", VStr message)] in
    let log_message :=
      match use_colors self, lookup_key level COLORS with
      | true, Some color => (log_message ++ [("color", VStr color)])%list
      | _, _ => log_message
      end in
    (if log_to_console self then
       let console_message := "[" +:+ timestamp +:+ "][" +:+ level +:+ "] " +:+ message in
       match use_colors self, lookup_key level COLORS with
       | true, Some color =>
           reset <- item COLORS "RESET" ;;
           print (color +:+ console_message +:+ reset)
       | _, _ => print console_message
       end
     else ret tt) ;;
    if log_to_file self then
      _rotate_file self ;;
      try_except
        (f_read <- open_r (file_name self) ;;
         logs <- ujson_load f_read ;;
         logs <- append logs (VDict log_message) ;;
         open_w (file_name self) ;;
         ujson_dump logs (file_name self))
        (fun e =>
           match e with
           | OSError msg => Some (print ("Error writing to log file: " +:+ msg))
           | ValueError =>
               Some (open_w (file_name self) ;;
                     ujson_dump (VList [VDict log_message]) (file_name self))
           | _ => None
           end)
    else ret tt
  else ret tt.

Definition debug (self : Logger) (message : string) : M unit := _log self "DEBUG" message.
Definition info (self : Logger) (message : string) : M unit := _log self "INFO" message.
Definition warning (self : Logger) (message : string) : M unit := _log self "WARNING" message.
Definition error (self : Logger) (message : string) : M unit := _log self "ERROR" message.
Definition critical (self : Logger) (message : string) : M unit := _log self "CRITICAL" message.
Definition trace (self : Logger) (message : string) : M unit := _log self "TRACE" message.

Definition disable (self : Logger) : Logger := set_current_level Infinity self.

End Logger.

(* ===================================================================== *)
(** * The emission pipeline: what the properties speak of *)
(* ===================================================================== *)

Module Pipeline.
Import Json Py Logger.
Local Open Scope py_scope.

(** ** The six entry points as one operation *)

Inductive Severity : Type := TRACE | DEBUG | INFO | WARNING | ERROR | CRITICAL.

Definition name (L : Severity) : string :=
  match L with
  | TRACE => "TRACE" | DEBUG => "DEBUG" | INFO => "INFO"
  | WARNING => "WARNING" | ERROR => "ERROR" | CRITICAL => "CRITICAL"
  end.

Definition rank (L : Severity) : Z :=
  match L with
  | TRACE => -1 | DEBUG => 0 | INFO => 1 | WARNING => 2 | ERROR => 3 | CRITICAL => 4
  end.

(** [Emit(level, message)]: the entry point of the level. *)
Definition emit (self : Logger) (L : Severity) (message : string) : M unit :=
  match L with
  | TRACE => trace self message
  | DEBUG => debug self message
  | INFO => info self message
  | WARNING => warning self message
  | ERROR => error self message
  | CRITICAL => critical self message
  end.

(** Calls in a row; the first exception ends the run. *)
Fixpoint emits (self : Logger) (calls : list (Severity * string)) : M unit :=
  match calls with
  | [] => ret tt
  | (L, message) :: calls' => emit self L message ;; emits self calls'
  end.

(** ** The stages of a call *)

(** The reading [time.localtime()] gives next, and the world after it. *)
Definition now (w : world) : localtime := hd epoch (clock w).

Definition tick (w : world) : world :=
  match clock w with
  | [] => w
  | _ :: rest => set_clock rest w
  end.

(** [YYYY-MM-DD HH:MM:SS]. *)
Definition timestamp_of (t : localtime) : string :=
  zero_padded 4 (tm_year t) +:+ "-" +:+
  zero_padded 2 (tm_mon t) +:+ "-" +:+
  zero_padded 2 (tm_mday t) +:+ " " +:+
  zero_padded 2 (tm_hour t) +:+ ":" +:+
  zero_padded 2 (tm_min t) +:+ ":" +:+
  zero_padded 2 (tm_sec t).

(** The timestamp of a call made in [w]. *)
Definition timestamp_at (w : world) : string := timestamp_of (now w).

Definition color (L : Severity) : string :=
  default EmptyString (lookup_key (name L) COLORS).

Definition reset : string := default EmptyString (lookup_key "RESET"%string COLORS).

(** The record of a call, as it is appended to the file. *)
Definition record (self : Logger) (L : Severity) (ts message : string) : value :=
  VDict ([("timestamp"%string, VStr ts); ("level"%string, VStr (name L));
          ("message"%string, VStr message)]
         ++ (if use_colors self then [("color"%string, VStr (color L))] else [])).

(** The line of a call on the console. *)
Definition console_line (self : Logger) (L : Severity) (ts message : string) : string :=
  let line := "[" +:+ ts +:+ "][" +:+ name L +:+ "] " +:+ message in
  if use_colors self then color L +:+ line +:+ reset else line.

(** The world after the console sink of an admitted call. *)
Definition after_console (self : Logger) (L : Severity) (message : string)
    (w : world) : world :=
  if log_to_console self
  then set_stdout (stdout (tick w) ++ [console_line self L (timestamp_at w) message]) (tick w)
  else tick w.

(** The [try] statement of [_log]: read the array, append, write it back. *)
Definition append_record (path : string) (rec : value) : M unit :=
  try_except
    (f_read <- open_r path ;;
     logs <- ujson_load f_read ;;
     logs <- append logs rec ;;
     open_w path ;;
     ujson_dump logs path)
    (fun e =>
       match e with
       | OSError msg => Some (print ("Error writing to log file: " +:+ msg))
       | ValueError => Some (open_w path ;; ujson_dump (VList [rec]) path)
       | _ => None
       end).

(** The notice of the file sink: the one line it may print. *)
Definition is_notice (lines : list string) : Prop :=
  lines = [] \/ exists msg, lines = ["Error writing to log file: " +:+ msg]%string.

(** ** Rotation *)

(** The test [_rotate_file] makes: a limit is set and the file is larger. *)
Definition rotation_due (self : Logger) (w : world) : bool :=
  (max_file_size self >? 0)%Z &&
  match files w !! file_name self with
  | Some text => (Z.of_nat (String.length text) >? max_file_size self)%Z
  | None => false
  end.

(** What rotation leaves at the path of the log. *)
Definition fresh_file (self : Logger) : string :=
  if String.eqb (log_format self) "json" then "[]"%string
  else ("Log rotated." +:+ nl)%string.

(** The same logger with another format. *)
Definition with_format (format : string) (self : Logger) : Logger :=
  {| current_level := current_level self;
     log_to_console := log_to_console self;
     log_to_file := log_to_file self;
     file_name := file_name self;
     max_file_size := max_file_size self;
     use_colors := use_colors self;
     log_format := format |}.

(** ** The file at the path of the log *)

(** The file parses, and its top-level value is an array. *)
Definition holds_array (w : world) (path : string) : Prop :=
  exists l, (files w !! path ≫= loads) = Some (VList l).

(** From [w] to [w'] either no write to [path] was completed (the file is
    as it was, or was moved away and not created again, or was emptied by a
    write that then failed) or the file holds an array. *)
Definition intact_or_array (w w' : world) (path : string) : Prop :=
  files w' !! path = files w !! path \/
  files w' !! path = None \/
  files w' !! path = Some EmptyString \/
  holds_array w' path.

(** ** Runs of calls *)

(** Every call of the run is at or above the current minimum. *)
Definition admitted (self : Logger) (calls : list (Severity * string)) : Prop :=
  Forall (fun c => reaches (rank (fst c)) (current_level self) = true) calls.

(** Rotation is not due at any call of the run. *)
Fixpoint no_rotation (self : Logger) (calls : list (Severity * string))
    (w : world) : Prop :=
  match calls with
  | [] => True
  | (L, message) :: calls' =>
      rotation_due self w = false /\
      no_rotation self calls' (snd (emit self L message w))
  end.

(** The object stored for a call: its [level] and [message]. *)
Definition stores (c : Severity * string) (rec : value) : Prop :=
  exists d, rec = VDict d /\
            dict_get "level" d = Some (VStr (name (fst c))) /\
            dict_get "message" d = Some (VStr (snd c)).

(** ** I/O calls that succeed *)

(** The next [n] I/O calls made in [w] succeed; what the oracle holds for
    later calls is left open. *)
Definition next_calls_succeed (n : nat) (w : world) : Prop :=
  Forall (fun outcome => outcome = None) (take n (faults w)).

End Pipeline.

(* ===================================================================== *)
(** * Further notions: timestamps, runs on the console *)
(* ===================================================================== *)

Module Behaviour.
Import Json Py Logger Pipeline.

(** Every character is a decimal digit. *)
Definition all_digits (s : string) : Prop :=
  Forall (fun c => is_digit c = true) (list_ascii_of_string s).

(** A reading whose year has at most four digits and whose other fields
    have at most two, as [time.localtime()] gives until the year 9999. *)
Definition four_digit_year (t : localtime) : Prop :=
  (tm_year t < 10000 /\ tm_mon t < 100 /\ tm_mday t < 100 /\
   tm_hour t < 100 /\ tm_min t < 100 /\ tm_sec t < 100)%N.

(** The console lines of a run: a call below the minimum prints nothing and
    leaves the clock alone, an admitted call takes the next reading. *)
Fixpoint console_lines (self : Logger) (calls : list (Severity * string))
    (clk : list localtime) : list string :=
  match calls with
  | [] => []
  | (L, message) :: calls' =>
      if reaches (rank L) (current_level self)
      then console_line self L (timestamp_of (hd epoch clk)) message
             :: console_lines self calls' (tl clk)
      else console_lines self calls' clk
  end.

(** The clock after a run. *)
Fixpoint clock_after (self : Logger) (calls : list (Severity * string))
    (clk : list localtime) : list localtime :=
  match calls with
  | [] => clk
  | (L, _) :: calls' =>
      if reaches (rank L) (current_level self)
      then clock_after self calls' (tl clk)
      else clock_after self calls' clk
  end.

End Behaviour.

(* ===================================================================== *)
(** * What is written can be read back *)
(* ===================================================================== *)

Module JsonFacts.
Import Json.

Local Open Scope char_scope.
Local Open Scope list_scope.

(** Case analysis on the eight bits of a character. *)
Ltac ascii_cases c :=
  let b0 := fresh "b" in let b1 := fresh "b" in let b2 := fresh "b" in
  let b3 := fresh "b" in let b4 := fresh "b" in let b5 := fresh "b" in
  let b6 := fresh "b" in let b7 := fresh "b" in
  destruct c as [b0 b1 b2 b3 b4 b5 b6 b7];
  destruct b0, b1, b2, b3, b4, b5, b6, b7.

Lemma ends_number_no_digit s : ends_number s = true -> no_digit s = true.
Proof.
  destruct s as [|c s]; [reflexivity|]. simpl.
  destruct (is_digit c); [discriminate | reflexivity].
Qed.

Lemma read_uint_stop s : no_digit s = true -> read_uint s = (Nil, s).
Proof.
  destruct s as [|c s]; [reflexivity|]. simpl. intros H.
  ascii_cases c; try reflexivity; discriminate H.
Qed.

Lemma read_uint_chars u rest :
  no_digit rest = true -> read_uint (uint_chars u ++ rest) = (u, rest).
Proof.
  intros H. induction u; simpl; try rewrite IHu; try reflexivity.
  now apply read_uint_stop.
Qed.

Lemma to_uint_nonnil n : N.to_uint n <> Nil.
Proof.
  destruct n as [|p]; [discriminate|]. apply DecimalPos.Unsigned.to_uint_nonnil.
Qed.

Lemma read_digits_chars n rest :
  no_digit rest = true ->
  read_digits (nat_chars n ++ rest) = Some (N.to_uint n, rest).
Proof.
  intros H. unfold read_digits, nat_chars. rewrite read_uint_chars by assumption.
  pose proof (to_uint_nonnil n). destruct (N.to_uint n); congruence.
Qed.

Lemma uint_chars_head u :
  u <> Nil -> exists c t, uint_chars u = c :: t /\ is_digit c = true.
Proof. destruct u; try congruence; intros _; simpl; eauto. Qed.

Lemma nat_chars_head n : exists c t, nat_chars n = c :: t /\ is_digit c = true.
Proof. apply uint_chars_head, to_uint_nonnil. Qed.

Lemma int_chars_head z : exists c t, int_chars z = c :: t /\ value_start c = true.
Proof.
  unfold int_chars. destruct (z <? 0)%Z.
  - eexists _, _. split; reflexivity.
  - destruct (nat_chars_head (Z.abs_N z)) as (c & t & -> & Hc).
    exists c, t. split; [reflexivity|]. unfold value_start. now rewrite Hc.
Qed.

Lemma read_sign_digit plus c t :
  is_digit c = true -> read_sign plus (c :: t) = (false, c :: t).
Proof. intros H. ascii_cases c; try discriminate H; destruct plus; reflexivity. Qed.

Lemma apply_sign_abs z :
  apply_sign (z <? 0)%Z (N.of_uint (N.to_uint (Z.abs_N z))) = z.
Proof.
  rewrite DecimalN.Unsigned.of_to. unfold apply_sign.
  destruct (Z.ltb_spec z 0); rewrite N2Z.inj_abs_N; lia.
Qed.

(** The sign and the digits of a written integer. *)
Lemma read_signed plus z rest :
  no_digit rest = true ->
  exists neg s1 u,
    read_sign plus (int_chars z ++ rest) = (neg, s1) /\
    read_digits s1 = Some (u, rest) /\ apply_sign neg (N.of_uint u) = z.
Proof.
  intros H. unfold int_chars. destruct (z <? 0)%Z eqn:Hz.
  - exists true, (nat_chars (Z.abs_N z) ++ rest), (N.to_uint (Z.abs_N z)).
    split; [reflexivity|]. split; [now apply read_digits_chars|].
    rewrite <- Hz at 1. apply apply_sign_abs.
  - exists false, (nat_chars (Z.abs_N z) ++ rest), (N.to_uint (Z.abs_N z)).
    split; [|split; [now apply read_digits_chars|]].
    + destruct (nat_chars_head (Z.abs_N z)) as (c & t & -> & Hc).
      now apply read_sign_digit.
    + rewrite <- Hz at 1. apply apply_sign_abs.
Qed.

Lemma read_exponent_none s :
  ends_number s = true -> read_exponent s = Some (None, s).
Proof.
  destruct s as [|c s]; [reflexivity|]. simpl. intros H.
  destruct (Ascii.eqb c "e"), (Ascii.eqb c "E"); simpl;
    try reflexivity; rewrite ?orb_true_r in H; simpl in H;
    destruct (is_digit c); discriminate H.
Qed.

Lemma not_dot s (A : Type) (f : list ascii -> A) (g : A) :
  ends_number s = true ->
  match s with "." :: s3 => f s3 | _ => g end = g.
Proof.
  destruct s as [|c s]; [reflexivity|]. simpl. intros H.
  ascii_cases c; try reflexivity; discriminate H.
Qed.

Lemma parse_number_int z rest :
  ends_number rest = true ->
  parse_number (int_chars z ++ rest) = Some (VInt z, rest).
Proof.
  intros H. unfold parse_number.
  destruct (read_signed false z rest (ends_number_no_digit _ H))
    as (neg & s1 & u & -> & -> & Hu).
  rewrite not_dot by assumption. rewrite read_exponent_none by assumption.
  now rewrite Hu.
Qed.

Lemma parse_number_float m e rest :
  no_digit rest = true ->
  parse_number (int_chars m ++ "e" :: int_chars e ++ rest) = Some (VFloat m e, rest).
Proof.
  intros H. unfold parse_number.
  destruct (read_signed false m ("e" :: int_chars e ++ rest) eq_refl)
    as (neg & s1 & u & -> & -> & Hu).
  destruct (read_signed true e rest H) as (neg' & s1' & u' & E & Hd & Hu').
  cbn [read_exponent Ascii.eqb Bool.eqb orb]. rewrite E, Hd, Hu, Hu'. reflexivity.
Qed.

(** ** Strings *)

Lemma parse_string_escape_char c body t rest :
  parse_string body = Some (t, rest) ->
  parse_string (escape_char c ++ body) = Some (String c t, rest).
Proof.
  intros H.
  ascii_cases c;
    match goal with
    | |- context [escape_char ?a] =>
        let e := eval vm_compute in (escape_char a) in
        change (escape_char a) with e
    end;
    cbn [app parse_string hex_val]; rewrite H; reflexivity.
Qed.

Lemma parse_string_escape s rest :
  parse_string (escape s ++ "034" :: rest) = Some (s, rest).
Proof.
  induction s as [|c s IH]; [reflexivity|].
  cbn [escape]. rewrite <- app_assoc. now apply parse_string_escape_char.
Qed.

Lemma quote_app s rest : quote s ++ rest = "034" :: escape s ++ "034" :: rest.
Proof. unfold quote. cbn. now rewrite <- app_assoc. Qed.

(** ** The first character of a written value *)

Lemma dump_chars_head v :
  exists c t, dump_chars v = c :: t /\ value_start c = true.
Proof.
  destruct v as [|[]|z|m e|s|l|d]; cbn; eauto.
  - apply int_chars_head.
  - destruct (int_chars_head m) as (c & t & -> & Hc). cbn. eauto.
Qed.

Lemma value_start_spec c :
  value_start c = true ->
  is_ws c = false /\ Ascii.eqb c "]" = false /\ Ascii.eqb c "}" = false.
Proof. ascii_cases c; intros H; try discriminate H; repeat split. Qed.

Lemma parse_value_skip fuel s : parse_value fuel (" " :: s) = parse_value fuel s.
Proof. destruct fuel; reflexivity. Qed.

Lemma parse_member_skip pv s : parse_member pv (" " :: s) = parse_member pv s.
Proof. reflexivity. Qed.

Lemma parse_value_number n c t :
  is_digit c = true \/ c = "-" ->
  parse_value (S n) (c :: t) = parse_number (c :: t).
Proof.
  intros [H | ->]; [|reflexivity].
  ascii_cases c; try discriminate H; reflexivity.
Qed.

Lemma int_chars_start z :
  exists c t, int_chars z = c :: t /\ (is_digit c = true \/ c = "-").
Proof.
  unfold int_chars. destruct (z <? 0)%Z; [eauto|].
  destruct (nat_chars_head (Z.abs_N z)) as (c & t & -> & Hc). eauto.
Qed.

(** ** Bracketed sequences *)

Section Items.
Context {A : Type} (item : list ascii -> option (A * list ascii)).
Context (pr : A -> list ascii) (close : ascii).
Hypothesis close_bracket : close = "]" \/ close = "}".

Lemma parse_items_written (l : list A) (k : nat) (rest : list ascii) :
  l <> [] -> (length l <= k)%nat ->
  Forall (fun x => forall r, follows close r ->
            item (pr x ++ r) = Some (x, r) /\
            item (" " :: pr x ++ r) = Some (x, r)) l ->
  parse_items item close k (sep_concat [","; " "] (map pr l) ++ close :: rest)
    = Some (l, rest) /\
  parse_items item close k (" " :: sep_concat [","; " "] (map pr l) ++ close :: rest)
    = Some (l, rest).
Proof.
  intros Hne Hk Hall. revert k Hk.
  induction Hall as [|x l Hx Hall IH]; [congruence|]. clear Hne.
  intros [|k] Hk; [simpl in Hk; lia|]. simpl in Hk.
  destruct l as [|y l].
  - cbn [map sep_concat parse_items].
    destruct (Hx (close :: rest)) as [-> ->]; [right; reflexivity|].
    assert (E : skip_ws (close :: rest) = close :: rest)
      by (destruct close_bracket as [-> | ->]; reflexivity).
    rewrite E, Ascii.eqb_refl. split; reflexivity.
  - assert (Hk' : (length (y :: l) <= k)%nat) by (simpl in *; lia).
    destruct (IH ltac:(discriminate) k Hk') as [_ IH2]. clear IH Hk'.
    set (tl := sep_concat [","; " "] (map pr (y :: l)) ++ close :: rest) in *.
    assert (E : sep_concat [","; " "] (map pr (x :: y :: l)) ++ close :: rest
                = pr x ++ "," :: " " :: tl).
    { subst tl. cbn [map sep_concat]. rewrite <- !app_assoc. reflexivity. }
    rewrite E. cbn [parse_items].
    destruct (Hx ("," :: " " :: tl)) as [-> ->]; [left; reflexivity|].
    cbn [skip_ws is_ws].
    assert (Hc : Ascii.eqb "," close = false)
      by (destruct close_bracket as [-> | ->]; reflexivity).
    rewrite Hc. cbn [Ascii.eqb Bool.eqb].
    rewrite IH2. split; reflexivity.
Qed.
End Items.

Lemma length_sep_concat sep (parts : list (list ascii)) :
  Forall (fun p => p <> []) parts ->
  (length parts <= length (sep_concat sep parts))%nat.
Proof.
  induction 1 as [|p parts Hp _ IH]; [reflexivity|].
  destruct parts as [|q parts].
  - destruct p; [congruence | simpl; lia].
  - change (sep_concat sep (p :: q :: parts))
      with (p ++ sep ++ sep_concat sep (q :: parts)).
    rewrite !length_app. destruct p; [congruence|]. simpl in *. lia.
Qed.

Section Seq.
Context {A : Type} (item : list ascii -> option (A * list ascii)).
Context (pr : A -> list ascii) (close : ascii).
Hypothesis close_bracket : close = "]" \/ close = "}".
Hypothesis pr_head : forall x, exists c t, pr x = c :: t /\ value_start c = true.

Lemma parse_seq_written (l : list A) (rest : list ascii) :
  Forall (fun x => forall r, follows close r ->
            item (pr x ++ r) = Some (x, r) /\
            item (" " :: pr x ++ r) = Some (x, r)) l ->
  parse_seq item close (sep_concat [","; " "] (map pr l) ++ close :: rest)
    = Some (l, rest).
Proof.
  intros Hall. unfold parse_seq. destruct l as [|x l].
  - cbn [map sep_concat app].
    assert (E : skip_ws (close :: rest) = close :: rest)
      by (destruct close_bracket as [-> | ->]; reflexivity).
    now rewrite E, Ascii.eqb_refl.
  - set (s := sep_concat [","; " "] (map pr (x :: l)) ++ close :: rest).
    assert (Hlen : (length (x :: l) <= length s)%nat).
    { subst s. rewrite length_app, <- (length_map pr (x :: l)).
      etransitivity; [apply (length_sep_concat [","; " "])|lia].
      apply List.Forall_forall. intros p Hp. apply in_map_iff in Hp as (y & <- & _).
      destruct (pr_head y) as (c & t & -> & _). discriminate. }
    assert (Hs : exists c t, s = c :: t /\ value_start c = true).
    { subst s. destruct (pr_head x) as (c & t & E & Hc).
      destruct l; cbn [map sep_concat]; rewrite E; cbn; eauto. }
    destruct Hs as (c & t & Hs & Hc).
    destruct (value_start_spec c Hc) as (Hws & Hsq & Hcu).
    rewrite Hs at 1. cbn [skip_ws]. rewrite Hws.
    assert (Hcl : Ascii.eqb c close = false)
      by (destruct close_bracket as [-> | ->]; assumption).
    rewrite Hcl. subst s.
    now apply (parse_items_written item pr close close_bracket (x :: l)).
Qed.
End Seq.

(** ** Induction on values, through the lists they nest *)

Section ValueInd.
Variable P : value -> Prop.
Hypothesis Hnone : P VNone.
Hypothesis Hbool : forall b, P (VBool b).
Hypothesis Hint : forall z, P (VInt z).
Hypothesis Hfloat : forall m e, P (VFloat m e).
Hypothesis Hstr : forall s, P (VStr s).
Hypothesis Hlist : forall l, Forall P l -> P (VList l).
Hypothesis Hdict : forall d, Forall (fun kv => P (snd kv)) d -> P (VDict d).

Fixpoint value_nested_ind (v : value) : P v :=
  match v with
  | VNone => Hnone
  | VBool b => Hbool b
  | VInt z => Hint z
  | VFloat m e => Hfloat m e
  | VStr s => Hstr s
  | VList l =>
      Hlist l
        ((fix all (l : list value) : Forall P l :=
            match l with
            | [] => List.Forall_nil P
            | x :: l' => List.Forall_cons P x l' (value_nested_ind x) (all l')
            end) l)
  | VDict d =>
      Hdict d
        ((fix all (d : list (string * value)) : Forall (fun kv => P (snd kv)) d :=
            match d with
            | [] => List.Forall_nil _
            | kv :: d' =>
                List.Forall_cons _ kv d' (value_nested_ind (snd kv)) (all d')
            end) d)
  end.
End ValueInd.

Lemma follows_ends_number close r :
  close = "]" \/ close = "}" -> follows close r -> ends_number r = true.
Proof.
  destruct r as [|c r]; [reflexivity|]. cbn.
  intros [-> | ->] [-> | ->]; reflexivity.
Qed.

Lemma depth_list_lt (l : list value) (n : nat) :
  (depth (VList l) < S n)%nat -> Forall (fun x => (depth x < n)%nat) l.
Proof.
  cbn [depth]. intros H. apply PeanoNat.lt_S_n in H. revert H.
  induction l as [|x l IH]; cbn [fold_right]; intros H; constructor.
  - lia.
  - apply IH. lia.
Qed.

Lemma depth_dict_lt (d : list (string * value)) (n : nat) :
  (depth (VDict d) < S n)%nat -> Forall (fun kv => (depth (snd kv) < n)%nat) d.
Proof.
  cbn [depth]. intros H. apply PeanoNat.lt_S_n in H. revert H.
  induction d as [|x d IH]; cbn [fold_right]; intros H; constructor.
  - lia.
  - apply IH. lia.
Qed.

(** The parser reads back a written value, whatever follows it, and leaves
    what follows. *)
Lemma parse_value_dump v :
  forall fuel rest,
    (depth v < fuel)%nat -> ends_number rest = true ->
    parse_value fuel (dump_chars v ++ rest) = Some (v, rest).
Proof.
  induction v as [|b|z|m e|s|l IH|d IH] using value_nested_ind;
    intros [|n] rest Hfuel Hrest; try (exfalso; lia).
  - reflexivity.
  - destruct b; reflexivity.
  - transitivity (parse_number (dump_chars (VInt z) ++ rest)).
    + cbn [dump_chars]. destruct (int_chars_start z) as (c & t & -> & Hc).
      now apply parse_value_number.
    + now apply parse_number_int.
  - transitivity (parse_number (dump_chars (VFloat m e) ++ rest)).
    + cbn [dump_chars]. destruct (int_chars_start m) as (c & t & -> & Hc).
      now apply parse_value_number.
    + cbn [dump_chars]. rewrite <- app_assoc. cbn [app].
      apply parse_number_float. now apply ends_number_no_digit.
  - cbn [dump_chars]. rewrite quote_app. cbn [parse_value skip_ws is_ws].
    now rewrite parse_string_escape.
  - cbn [dump_chars]. cbn [app]. rewrite <- app_assoc. cbn [app].
    cbn [parse_value skip_ws is_ws].
    rewrite (parse_seq_written (parse_value n) dump_chars "]"); auto using dump_chars_head.
    apply depth_list_lt in Hfuel.
    rewrite Forall_forall in *. intros x Hx r Hr.
    rewrite parse_value_skip.
    split; apply IH; auto; apply (follows_ends_number "]"); auto.
  - cbn [dump_chars]. cbn [app]. rewrite <- app_assoc. cbn [app].
    cbn [parse_value skip_ws is_ws].
    rewrite (parse_seq_written (parse_member (parse_value n))
               (fun kv => quote (fst kv) ++ ":" :: " " :: dump_chars (snd kv)) "}");
      auto.
    + intros [k v]. cbn. eauto.
    + apply depth_dict_lt in Hfuel.
      rewrite Forall_forall in *. intros [k v] Hx r Hr.
      rewrite parse_member_skip. unfold parse_member.
      rewrite <- app_assoc, quote_app. cbn [skip_ws is_ws fst snd].
      rewrite parse_string_escape. cbn [app skip_ws is_ws].
      rewrite parse_value_skip.
      pose proof (IH (k, v) Hx n r (Hfuel (k, v) Hx)
                    (follows_ends_number "}" r (or_intror eq_refl) Hr)) as E.
      cbn [snd] in E. rewrite E. split; reflexivity.
Qed.

(** ** Enough fuel *)

Lemma length_part_sep_concat sep (parts : list (list ascii)) :
  Forall (fun p => (length p <= length (sep_concat sep parts))%nat) parts.
Proof.
  induction parts as [|p parts IH]; constructor.
  - destruct parts; cbn [sep_concat]; rewrite ?length_app; lia.
  - destruct parts as [|q parts]; [constructor|].
    change (sep_concat sep (p :: q :: parts))
      with (p ++ sep ++ sep_concat sep (q :: parts)).
    eapply Forall_impl; [exact IH|]. cbn beta. intros r Hr.
    rewrite !length_app. lia.
Qed.

Lemma max_depth_bound {A : Type} (f : A -> value) (pr : A -> list ascii)
    (l : list A) (bound : nat) :
  Forall (fun x => (depth (f x) <= length (pr x))%nat) l ->
  Forall (fun p => (length p <= bound)%nat) (map pr l) ->
  (fold_right (fun x n => Nat.max (depth (f x)) n) O l <= bound)%nat.
Proof.
  induction 1 as [|x l Hx _ IH]; cbn [map fold_right]; [lia|].
  intros H. apply Forall_cons in H as [H1 H2]. specialize (IH H2). lia.
Qed.

Lemma depth_le_length v : (depth v <= length (dump_chars v))%nat.
Proof.
  induction v as [|b|z|m e|s|l IH|d IH] using value_nested_ind;
    cbn [depth]; try lia.
  - cbn [dump_chars length]. rewrite length_app.
    pose proof (max_depth_bound (fun x => x) dump_chars l _ IH
                  (length_part_sep_concat [","; " "] (map dump_chars l))).
    cbn beta in *. lia.
  - cbn [dump_chars length]. rewrite length_app.
    set (pr := fun kv : string * value =>
                 quote (fst kv) ++ ":" :: " " :: dump_chars (snd kv)).
    assert (IH' : Forall (fun kv => (depth (snd kv) <= length (pr kv))%nat) d).
    { eapply Forall_impl; [exact IH|]. intros [k v] H. subst pr. cbn in *.
      rewrite length_app. cbn. lia. }
    pose proof (max_depth_bound snd pr d _ IH'
                  (length_part_sep_concat [","; " "] (map pr d))).
    cbn beta in *. lia.
Qed.

(** [ujson.load] after [ujson.dump] gives the value back. *)
Theorem loads_dumps v : loads (dumps v) = Some v.
Proof.
  unfold loads, dumps. rewrite list_ascii_of_string_of_list_ascii.
  pose proof (parse_value_dump v (S (length (dump_chars v))) []) as H.
  rewrite app_nil_r in H. rewrite H; [reflexivity| |reflexivity].
  pose proof (depth_le_length v). lia.
Qed.

End JsonFacts.

(* ===================================================================== *)
(** * The emission pipeline: proofs *)
(* ===================================================================== *)

Module Properties.
Import Json Py Logger Pipeline.
Local Open Scope py_scope.

Arguments loads : simpl never.
Arguments dumps : simpl never.
Arguments zero_padded : simpl never.

(** ** [_log], stage by stage *)

Lemma format_timestamp_run (w : world) :
  _format_timestamp w = (Return (timestamp_at w), tick w).
Proof.
  unfold _format_timestamp, timestamp_at, timestamp_of, now, tick, bind,
    time_localtime, ret.
  destruct (clock w); reflexivity.
Qed.

Lemma emit_stages (self : Logger) (L : Severity) (message : string) (w : world) :
  emit self L message w =
  if reaches (rank L) (current_level self) then
    if log_to_file self then
      (_rotate_file self ;;
       append_record (file_name self) (record self L (timestamp_at w) message))
        (after_console self L message w)
    else (Return tt, after_console self L message w)
  else (Return tt, w).
Proof.
  destruct L; cbv [emit trace debug info warning error critical _log];
    cbv [bind item name rank]; cbn [lookup_key LEVELS String.eqb Ascii.eqb Bool.eqb];
    cbv [ret];
    (destruct (reaches _ (current_level self)); [|reflexivity]);
    rewrite format_timestamp_run;
    unfold after_console, record, console_line, append_record;
    cbn [snd lookup_key COLORS String.eqb Ascii.eqb Bool.eqb name];
    destruct (use_colors self), (log_to_console self), (log_to_file self);
    reflexivity.
Qed.

(** ** Running the primitives *)

(** Unfold the monad and the primitives, and read the fields of the worlds
    that are built. *)
Ltac simp_world :=
  cbn [files stdout clock faults set_files set_stdout set_clock set_faults
       fst snd default].

Ltac unfold_py :=
  cbv [bind ret raise try_except io open_r open_w write ujson_dump ujson_load
       seek_end_tell rename print append];
  simp_world.

(** Case analysis on the next entry of the oracle, on a file looked up, on
    a test the code makes. *)
Ltac next_case :=
  match goal with
  | |- context [match ?flt with [] => _ | _ :: _ => _ end] =>
      is_var flt; destruct flt as [|[?|] ?]
  | |- context [match ?m !! ?p with Some _ => _ | None => _ end] =>
      destruct (m !! p) eqn:?
  | |- context [match loads ?t with Some _ => _ | None => _ end] =>
      destruct (loads t) as [[]|] eqn:?
  | |- context [if ?b then _ else _] => destruct b eqn:?
  end;
  simp_world.

Ltac run_py := unfold_py; repeat next_case.

(** Rotation never raises, and touches neither the console nor the clock. *)
Lemma rotate_returns (self : Logger) (w : world) :
  exists w', _rotate_file self w = (Return tt, w') /\
             stdout w' = stdout w /\ clock w' = clock w.
Proof.
  destruct w as [fs out clk flt]. unfold _rotate_file.
  run_py; eexists; (split; [reflexivity|]); split; reflexivity.
Qed.

Lemma tick_fields (w : world) :
  files (tick w) = files w /\ stdout (tick w) = stdout w /\
  faults (tick w) = faults w.
Proof.
  unfold tick. destruct (clock w); repeat split.
Qed.

Lemma after_console_stdout (self : Logger) (L : Severity) (message : string)
    (w : world) :
  stdout (after_console self L message w) =
  stdout w ++
    (if log_to_console self
     then [console_line self L (timestamp_at w) message] else []).
Proof.
  unfold after_console. destruct (tick_fields w) as (_ & E & _).
  destruct (log_to_console self); cbn [stdout set_stdout]; rewrite E;
    [reflexivity | now rewrite app_nil_r].
Qed.

Lemma after_console_files (self : Logger) (L : Severity) (message : string)
    (w : world) :
  files (after_console self L message w) = files w /\
  faults (after_console self L message w) = faults w.
Proof.
  unfold after_console. destruct (tick_fields w) as (E & _ & E').
  destruct (log_to_console self); cbn [files faults set_stdout]; auto.
Qed.

Lemma append_record_stdout (path : string) (rec : value) (w : world) :
  exists notice,
    stdout (snd (append_record path rec w)) = stdout w ++ notice /\
    is_notice notice.
Proof.
  destruct w as [fs out clk flt]. unfold append_record, is_notice.
  run_py;
    first [ exists []; split; [now rewrite app_nil_r | now left]
          | eexists [_]; split; [reflexivity | right; eexists; reflexivity] ].
Qed.

(** ** Worlds where every I/O call succeeds, and rotation *)

Lemma path_old_neq (path : string) : path <> (path +:+ ".old")%string.
Proof.
  induction path as [|c path IH]; [discriminate|].
  intros H. apply IH. now injection H.
Qed.

Lemma dumps_empty : dumps (VList []) = "[]"%string.
Proof. reflexivity. Qed.

Lemma append_empty (s : string) : (EmptyString +:+ s)%string = s.
Proof. reflexivity. Qed.

(** Rotation with every call succeeding: the due file is moved aside and a
    fresh one stands in its place. *)
Lemma rotate_due (self : Logger) (w : world) (text : string) :
  faults w = [] ->
  files w !! file_name self = Some text ->
  rotation_due self w = true ->
  _rotate_file self w =
    (Return tt,
     set_files (<[file_name self := fresh_file self]>
                  (<[(file_name self +:+ ".old")%string := text]>
                     (delete (file_name self) (files w)))) w).
Proof.
  destruct w as [fs out clk flt]. cbn [faults files]. intros -> Hf Hdue.
  unfold rotation_due in Hdue. cbn [files] in Hdue. rewrite Hf in Hdue.
  apply andb_true_iff in Hdue as [Hmax Hsize].
  unfold _rotate_file, fresh_file. rewrite Hmax.
  unfold_py.
  repeat first [rewrite Hf | rewrite Hsize | progress simp_world].
  destruct (String.eqb (log_format self) "json"); simp_world;
    rewrite lookup_insert_eq; simp_world;
    rewrite ?dumps_empty, append_empty, !insert_insert_eq; reflexivity.
Qed.

(** Rotation that is not due leaves the files alone, whatever fails. *)
Lemma rotate_not_due (self : Logger) (w : world) :
  rotation_due self w = false ->
  files (snd (_rotate_file self w)) = files w.
Proof.
  destruct w as [fs out clk flt]. unfold rotation_due, _rotate_file.
  cbn [files]. intros Hdue.
  destruct (max_file_size self >? 0)%Z; [|reflexivity].
  cbn [andb] in Hdue. unfold_py.
  destruct (fs !! file_name self) as [text|] eqn:Hf.
  - destruct flt as [|[?|] [|[?|] ?]];
      repeat first [rewrite Hf | rewrite Hdue | progress simp_world];
      reflexivity.
  - destruct flt as [|[?|] ?];
      repeat first [rewrite Hf | progress simp_world]; reflexivity.
Qed.

Lemma rotate_not_due_calm (self : Logger) (w : world) :
  faults w = [] -> rotation_due self w = false ->
  _rotate_file self w = (Return tt, w).
Proof.
  destruct w as [fs out clk flt]. unfold rotation_due, _rotate_file.
  cbn [files faults]. intros -> Hdue.
  destruct (max_file_size self >? 0)%Z; [|reflexivity].
  cbn [andb] in Hdue. unfold_py.
  destruct (fs !! file_name self) as [text|] eqn:Hf;
    repeat first [rewrite Hf | rewrite Hdue | progress simp_world];
    reflexivity.
Qed.

(** Rotation looks at the files and at the oracle only. *)
Lemma rotate_frame (self : Logger) (w1 w2 : world) :
  files w1 = files w2 -> faults w1 = faults w2 ->
  fst (_rotate_file self w1) = fst (_rotate_file self w2) /\
  files (snd (_rotate_file self w1)) = files (snd (_rotate_file self w2)) /\
  faults (snd (_rotate_file self w1)) = faults (snd (_rotate_file self w2)).
Proof.
  destruct w1 as [fs out1 clk1 flt], w2 as [fs2 out2 clk2 flt2].
  cbn [files faults]. intros <- <-. unfold _rotate_file.
  run_py; repeat split.
Qed.

Lemma rotate_calm (self : Logger) (w : world) :
  faults w = [] -> faults (snd (_rotate_file self w)) = [].
Proof.
  destruct w as [fs out clk flt]. cbn [faults]. intros ->.
  unfold _rotate_file. run_py; reflexivity.
Qed.

(** ** The file sink with every call succeeding *)

Section AppendRecord.
Context (path : string) (rec : value) (w : world).
Hypothesis calm : faults w = [].

Lemma append_record_array (text : string) (l : list value) :
  files w !! path = Some text -> loads text = Some (VList l) ->
  append_record path rec w =
    (Return tt, set_files (<[path := dumps (VList (l ++ [rec]))]> (files w)) w).
Proof.
  destruct w as [fs out clk flt]. cbn [faults files] in *. subst flt.
  intros Hf Hl. unfold append_record. unfold_py.
  repeat first [rewrite Hf | rewrite Hl | rewrite lookup_insert_eq
               | progress simp_world].
  now rewrite append_empty, insert_insert_eq.
Qed.

Lemma append_record_invalid (text : string) :
  files w !! path = Some text -> loads text = None ->
  append_record path rec w =
    (Return tt, set_files (<[path := dumps (VList [rec])]> (files w)) w).
Proof.
  destruct w as [fs out clk flt]. cbn [faults files] in *. subst flt.
  intros Hf Hl. unfold append_record. unfold_py.
  repeat first [rewrite Hf | rewrite Hl | rewrite lookup_insert_eq
               | progress simp_world].
  now rewrite append_empty, insert_insert_eq.
Qed.

Lemma append_record_not_array (text : string) (v : value) :
  files w !! path = Some text -> loads text = Some v ->
  (forall l, v <> VList l) ->
  append_record path rec w = (Raise AttributeError, w).
Proof.
  destruct w as [fs out clk flt]. cbn [faults files] in *. subst flt.
  intros Hf Hl Hv. unfold append_record. unfold_py.
  repeat first [rewrite Hf | rewrite Hl | progress simp_world].
  destruct v; try reflexivity. now destruct (Hv l).
Qed.

Lemma append_record_missing :
  files w !! path = None ->
  append_record path rec w =
    (Return tt,
     set_stdout (stdout w ++ [("Error writing to log file: " +:+ ENOENT)%string]) w).
Proof.
  destruct w as [fs out clk flt]. cbn [faults files] in *. subst flt.
  intros Hf. unfold append_record. unfold_py.
  repeat first [rewrite Hf | progress simp_world]. reflexivity.
Qed.
End AppendRecord.

(** ** What an operation can leave at the path of the log *)

Ltac norm_files :=
  repeat first [ rewrite lookup_insert_eq | rewrite append_empty
               | rewrite insert_insert_eq | progress simp_world ].

Lemma holds_array_dumps (fs : gmap string string) (out : list string)
    (clk : list localtime) (flt : list (option string)) (path : string)
    (l : list value) :
  holds_array {| files := <[path := dumps (VList l)]> fs; stdout := out;
                 clock := clk; faults := flt |} path.
Proof.
  exists l. simp_world. rewrite lookup_insert_eq. cbn.
  apply JsonFacts.loads_dumps.
Qed.

(** Settle one outcome of a symbolic run. *)
Ltac settle_file :=
  unfold intact_or_array; norm_files;
  first [ left; first [reflexivity | assumption]
        | right; left;
          first [ apply lookup_delete_eq
                | rewrite lookup_insert_ne by (apply not_eq_sym, path_old_neq);
                  apply lookup_delete_eq ]
        | right; right; left; reflexivity
        | right; right; right; apply holds_array_dumps ].

Lemma append_record_file (path : string) (rec : value) (w : world) :
  files (snd (append_record path rec w)) !! path = files w !! path \/
  files (snd (append_record path rec w)) !! path = Some EmptyString \/
  holds_array (snd (append_record path rec w)) path.
Proof.
  destruct w as [fs out clk flt]. unfold append_record.
  run_py; norm_files;
    first [ left; first [reflexivity | assumption]
          | right; left; reflexivity
          | right; right; apply holds_array_dumps ].
Qed.

Lemma rotate_file_json (self : Logger) (w : world) :
  log_format self = "json"%string ->
  intact_or_array w (snd (_rotate_file self w)) (file_name self).
Proof.
  intros Hjson. destruct w as [fs out clk flt]. unfold _rotate_file.
  rewrite Hjson. cbn [String.eqb Ascii.eqb Bool.eqb].
  run_py; settle_file.
Qed.

(* ===================================================================== *)
(** * Properties *)
(* ===================================================================== *)

(** ** Level filtering and the console line *)

(** The timestamp has the shape [YYYY-MM-DD HH:MM:SS]. *)
Example timestamp_of_example :
  timestamp_of {| tm_year := 2024; tm_mon := 3; tm_mday := 7;
                  tm_hour := 9; tm_min := 5; tm_sec := 2 |}
  = "2024-03-07 09:05:02"%string.
Proof. reflexivity. Qed.

(** C1, as amended.  A call below the current minimum returns at once and
    leaves the world as it was: nothing printed, no file touched, the clock
    not even read.  A call at or above it prints the record's line
    [[timestamp][LEVEL] message], between the colour of the level and the
    reset code when colours are enabled, exactly when the console sink is
    enabled; the only other line it can print is the file sink's notice
    [Error writing to log file: ...], which comes after it and does not
    depend on the console sink. *)
Theorem C1_console_output (self : Logger) (L : Severity) (message : string)
    (w : world) :
  (reaches (rank L) (current_level self) = false ->
     emit self L message w = (Return tt, w)) /\
  (reaches (rank L) (current_level self) = true ->
     exists notice,
       stdout (snd (emit self L message w)) =
         stdout w
         ++ (if log_to_console self
             then [console_line self L (timestamp_at w) message] else [])
         ++ notice /\
       is_notice notice /\
       (log_to_file self = false -> notice = [])) /\
  console_line self L (timestamp_at w) message =
    (let line := "[" +:+ timestamp_at w +:+ "][" +:+ name L +:+ "] " +:+ message in
     match use_colors self, lookup_key (name L) COLORS with
     | true, Some code => code +:+ line +:+ String ESC "[0m"
     | _, _ => line
     end)%string.
Proof.
  rewrite emit_stages. split; [|split].
  - now intros ->.
  - intros ->. destruct (log_to_file self).
    + unfold bind.
      destruct (rotate_returns self (after_console self L message w))
        as (w' & -> & Hout & _).
      destruct (append_record_stdout (file_name self)
                  (record self L (timestamp_at w) message) w')
        as (notice & E & Hn).
      exists notice. rewrite E, Hout, after_console_stdout, <- app_assoc.
      split; [reflexivity|]. split; [assumption | discriminate].
    + exists []. cbn [snd]. rewrite after_console_stdout, app_nil_r.
      split; [reflexivity|]. split; [now left | reflexivity].
  - unfold console_line. destruct L, (use_colors self); reflexivity.
Qed.

(** C1, as first stated, fails: with the console sink disabled a call still
    writes to the console when the file sink meets an I/O error.  Here the
    file could not be created at construction, so the call finds no file. *)
Lemma C1_notice_with_console_disabled :
  let w0 := {| files := ∅; stdout := []; clock := [];
               faults := [Some "[Errno 30] EROFS"%string] |} in
  exists self w1,
    __init__ "INFO" false true "log.txt" 0 true "json" w0 = (Return self, w1) /\
    log_to_console self = false /\
    stdout (snd (emit self INFO "hello" w1)) =
      stdout w1 ++ ["Error writing to log file: [Errno 2] ENOENT"%string].
Proof.
  eexists _, _. split; [vm_compute; reflexivity|]. split; reflexivity.
Qed.

(** ** Disabling *)

(** C8.  [disable] stores the infinite threshold, which no rank reaches,
    and changes no other attribute; from then on every call, at every level,
    returns at once and leaves the world as it was; [set_level] puts a finite
    threshold back, the one it would have set without the [disable]. *)
Theorem C8_disable_suppresses_all (self : Logger) :
  current_level (disable self) = Infinity /\
  (forall z, reaches z Infinity = false) /\
  (log_to_console (disable self) = log_to_console self /\
   log_to_file (disable self) = log_to_file self /\
   file_name (disable self) = file_name self /\
   max_file_size (disable self) = max_file_size self /\
   use_colors (disable self) = use_colors self /\
   log_format (disable self) = log_format self) /\
  (forall L message w, emit (disable self) L message w = (Return tt, w)) /\
  (forall calls w, emits (disable self) calls w = (Return tt, w)) /\
  (forall level,
     set_level (disable self) level = set_level self level /\
     exists z, current_level (set_level (disable self) level) = Finite z).
Proof.
  assert (H : forall L message w, emit (disable self) L message w = (Return tt, w))
    by (intros; now rewrite emit_stages).
  repeat split; auto.
  - induction calls as [|[L message] calls IH]; intros w; [reflexivity|].
    cbn [emits]. unfold bind. now rewrite H.
  - eexists. reflexivity.
Qed.

(** ** Rotation *)

(** C4.  In an admitted call with the file sink enabled, rotation runs
    first and the record is appended in the world it leaves.  Rotation never
    raises.  With a limit set and every call succeeding, a file larger than
    the limit is moved to [<path>.old], whatever was there, and a fresh file
    takes its place: [[]] for the json format, the line [Log rotated.]
    otherwise; a file within the limit is left as it is.  With the limit 0
    nothing happens at all. *)
Theorem C4_rotation_before_append (self : Logger) (w : world) :
  (forall L message,
     reaches (rank L) (current_level self) = true ->
     log_to_file self = true ->
     emit self L message w =
       (_rotate_file self ;;
        append_record (file_name self) (record self L (timestamp_at w) message))
         (after_console self L message w)) /\
  (exists w', _rotate_file self w = (Return tt, w')) /\
  (forall text,
     faults w = [] ->
     files w !! file_name self = Some text ->
     (0 < max_file_size self < Z.of_nat (String.length text))%Z ->
     exists w',
       _rotate_file self w = (Return tt, w') /\
       files w' =
         <[file_name self := fresh_file self]>
           (<[(file_name self +:+ ".old")%string := text]>
              (delete (file_name self) (files w))) /\
       files w' !! (file_name self +:+ ".old")%string = Some text /\
       files w' !! file_name self =
         Some (if String.eqb (log_format self) "json"
               then dumps (VList []) else ("Log rotated." +:+ nl)%string)) /\
  (forall text,
     files w !! file_name self = Some text ->
     (Z.of_nat (String.length text) <= max_file_size self)%Z ->
     files (snd (_rotate_file self w)) = files w) /\
  (max_file_size self = 0%Z -> _rotate_file self w = (Return tt, w)).
Proof.
  split; [|split; [|split; [|split]]].
  - intros L message HL Hf. now rewrite emit_stages, HL, Hf.
  - destruct (rotate_returns self w) as (w' & E & _). eauto.
  - intros text Hcalm Hfile Hsize.
    assert (Hdue : rotation_due self w = true).
    { unfold rotation_due. rewrite Hfile. apply andb_true_iff. split; lia. }
    rewrite (rotate_due self w text Hcalm Hfile Hdue).
    eexists. split; [reflexivity|]. cbn [files set_files].
    split; [reflexivity|]. split.
    + rewrite lookup_insert_ne by apply path_old_neq.
      apply lookup_insert_eq.
    + rewrite lookup_insert_eq. unfold fresh_file.
      now destruct (String.eqb (log_format self) "json").
  - intros text Hfile Hsize. apply rotate_not_due.
    unfold rotation_due. rewrite Hfile. apply andb_false_iff. right. lia.
  - intros Hmax. unfold _rotate_file. now rewrite Hmax.
Qed.

(** ** Recovery from a file that is not JSON *)

(** The [except ValueError] branch, when the four I/O calls of the [try]
    statement and of the handler succeed. *)
Lemma append_record_recovers (path : string) (rec : value) (w : world)
    (text : string) :
  next_calls_succeed 4 w ->
  files w !! path = Some text -> loads text = None ->
  exists w',
    append_record path rec w = (Return tt, w') /\
    files w' = <[path := dumps (VList [rec])]> (files w) /\
    stdout w' = stdout w.
Proof.
  destruct w as [fs out clk flt]. unfold next_calls_succeed.
  cbn [faults files]. intros Hok Hf Hl.
  unfold append_record. unfold_py.
  destruct flt as [|o1 [|o2 [|o3 [|o4 flt]]]]; cbn [take] in Hok;
    repeat match goal with
           | H : Forall _ (_ :: _) |- _ => apply Forall_cons in H as [-> H]
           end;
    repeat first [rewrite Hf | rewrite Hl | rewrite lookup_insert_eq
                 | progress simp_world];
    rewrite append_empty, insert_insert_eq;
    eexists; (split; [reflexivity|]); split; reflexivity.
Qed.

(** C5, as amended.  In an admitted call with the file sink enabled, if
    the text the call reads (the file as rotation leaves it) is not valid
    JSON, and the four I/O calls that follow rotation succeed (the open for
    reading, the load, the open for writing, the dump), whatever failed
    during rotation, then the call returns normally and the file holds the
    array of the new record alone; the other files are as rotation left
    them, and nothing but the console line of the call, if the console sink
    is enabled, is printed. *)
Theorem C5_corrupt_recovery (self : Logger) (L : Severity) (message : string)
    (w : world) (text : string) :
  reaches (rank L) (current_level self) = true ->
  log_to_file self = true ->
  files (snd (_rotate_file self w)) !! file_name self = Some text ->
  loads text = None ->
  next_calls_succeed 4 (snd (_rotate_file self w)) ->
  let rec := record self L (timestamp_at w) message in
  exists w',
    emit self L message w = (Return tt, w') /\
    files w' = <[file_name self := dumps (VList [rec])]>
                 (files (snd (_rotate_file self w))) /\
    (files w' !! file_name self ≫= loads) = Some (VList [rec]) /\
    stdout w' =
      stdout w ++ (if log_to_console self
                   then [console_line self L (timestamp_at w) message] else []).
Proof.
  intros HL Hfile Htext Hbad Hok rec.
  rewrite emit_stages, HL, Hfile. unfold bind.
  destruct (after_console_files self L message w) as [Efs Eflt].
  destruct (rotate_frame self (after_console self L message w) w Efs Eflt)
    as (_ & Hfs & Hflt).
  destruct (rotate_returns self (after_console self L message w))
    as (w2 & E & Hout & _).
  rewrite E in *. cbn [snd] in Hfs, Hflt.
  unfold next_calls_succeed in Hok. rewrite <- Hflt in Hok. rewrite <- Hfs in *.
  destruct (append_record_recovers (file_name self)
              (record self L (timestamp_at w) message) w2 text Hok Htext Hbad)
    as (w3 & -> & Hfs3 & Hout3).
  exists w3. split; [reflexivity|]. split; [exact Hfs3|]. split.
  - rewrite Hfs3, lookup_insert_eq. cbn. apply JsonFacts.loads_dumps.
  - rewrite Hout3, Hout. apply after_console_stdout.
Qed.

(** A text-format log as [__init__] leaves it: the first call finds the line
    [Logger initialized.], which is not JSON, and replaces it.  The fifth I/O
    call would fail; the call makes four. *)
Lemma C5_corrupt_recovery_witness :
  let self := {| current_level := Finite 1; log_to_console := false;
                 log_to_file := true; file_name := "log.txt";
                 max_file_size := 0; use_colors := false;
                 log_format := "text" |} in
  let w := {| files := {[ "log.txt"%string := ("Logger initialized." +:+ nl)%string ]};
              stdout := []; clock := [];
              faults := [None; None; None; None; Some "[Errno 28] ENOSPC"%string] |} in
  let rec := record self ERROR (timestamp_at w) "boom" in
  exists w',
    emit self ERROR "boom" w = (Return tt, w') /\
    files w' = <[file_name self := dumps (VList [rec])]>
                 (files (snd (_rotate_file self w))) /\
    (files w' !! file_name self ≫= loads) = Some (VList [rec]) /\
    stdout w' =
      stdout w ++ (if log_to_console self
                   then [console_line self ERROR (timestamp_at w) "boom"] else []).
Proof.
  intros self w.
  apply (C5_corrupt_recovery self ERROR "boom" w ("Logger initialized." +:+ nl)%string);
    try reflexivity.
  repeat constructor.
Defined.

(** C5, as first stated, fails.  The same log and the same call, but the
    open for writing of the handler fails: every condition of the claim
    holds (the call is admitted, the file sink is enabled, the text read is
    not JSON), and the call raises [OSError]; the text is not discarded and
    the file holds no array. *)
Lemma C5_recovery_write_fails :
  let self := {| current_level := Finite 1; log_to_console := false;
                 log_to_file := true; file_name := "log.txt";
                 max_file_size := 0; use_colors := false;
                 log_format := "text" |} in
  let text := ("Logger initialized." +:+ nl)%string in
  let w := {| files := {[ "log.txt"%string := text ]};
              stdout := []; clock := [];
              faults := [None; None; Some "[Errno 28] ENOSPC"%string] |} in
  reaches (rank ERROR) (current_level self) = true /\
  log_to_file self = true /\
  files (snd (_rotate_file self w)) !! file_name self = Some text /\
  loads text = None /\
  fst (emit self ERROR "boom" w) = Raise (OSError "[Errno 28] ENOSPC") /\
  files (snd (emit self ERROR "boom" w)) !! file_name self = Some text.
Proof. repeat split; vm_compute; reflexivity. Qed.

(** ** The JSON file after N calls *)

Lemma record_stores (self : Logger) (L : Severity) (ts message : string) :
  stores (L, message) (record self L ts message).
Proof.
  unfold stores, record. eexists. split; [reflexivity|].
  destruct (use_colors self); split; reflexivity.
Qed.

Lemma rotation_due_after_console (self : Logger) (L : Severity)
    (message : string) (w : world) :
  rotation_due self (after_console self L message w) = rotation_due self w.
Proof.
  unfold rotation_due.
  now destruct (after_console_files self L message w) as [-> _].
Qed.

(** One admitted call on a calm world whose file holds an array. *)
Lemma emit_appends (self : Logger) (L : Severity) (message : string)
    (w : world) (l : list value) :
  faults w = [] ->
  log_to_file self = true ->
  reaches (rank L) (current_level self) = true ->
  rotation_due self w = false ->
  files w !! file_name self = Some (dumps (VList l)) ->
  exists w',
    emit self L message w = (Return tt, w') /\
    faults w' = [] /\
    files w' !! file_name self =
      Some (dumps (VList (l ++ [record self L (timestamp_at w) message]))).
Proof.
  intros Hcalm Hfile HL Hdue Hl.
  rewrite emit_stages, HL, Hfile. unfold bind.
  destruct (after_console_files self L message w) as [Efs Eflt].
  rewrite rotate_not_due_calm;
    [| congruence | now rewrite rotation_due_after_console].
  erewrite append_record_array;
    [| congruence | rewrite Efs; exact Hl | apply JsonFacts.loads_dumps].
  eexists. split; [reflexivity|]. cbn [faults files set_files].
  split; [congruence | apply lookup_insert_eq].
Qed.

Lemma emits_append (self : Logger) (calls : list (Severity * string)) :
  log_to_file self = true ->
  forall (w : world) (l : list value),
    faults w = [] ->
    files w !! file_name self = Some (dumps (VList l)) ->
    admitted self calls ->
    no_rotation self calls w ->
    exists w' recs,
      emits self calls w = (Return tt, w') /\
      faults w' = [] /\
      files w' !! file_name self = Some (dumps (VList (l ++ recs))) /\
      Forall2 stores calls recs.
Proof.
  intros Hfile. induction calls as [|[L message] calls IH];
    intros w l Hcalm Hl Hadm Hrot.
  - exists w, []. rewrite app_nil_r. repeat split; auto.
  - apply Forall_cons in Hadm as [HL Hadm]. destruct Hrot as [Hdue Hrot].
    destruct (emit_appends self L message w l Hcalm Hfile HL Hdue Hl)
      as (w1 & E & Hcalm1 & Hl1).
    rewrite E in Hrot. cbn [snd] in Hrot.
    destruct (IH w1 _ Hcalm1 Hl1 Hadm Hrot) as (w2 & recs & E2 & Hcalm2 & Hl2 & Hst).
    exists w2, (record self L (timestamp_at w) message :: recs).
    cbn [emits]. unfold bind. rewrite E, E2, Hl2, <- app_assoc.
    repeat split; auto. constructor; [apply record_stores | assumption].
Qed.

(** Construction with the json format and every call succeeding. *)
Lemma init_json_calm (level : string) (console : bool) (path : string)
    (limit : Z) (colors : bool) (w : world) :
  faults w = [] ->
  __init__ level console true path limit colors "json" w =
    (Return {| current_level := Finite (default 1%Z (lookup_key (upper level) LEVELS));
               log_to_console := console; log_to_file := true;
               file_name := path; max_file_size := limit;
               use_colors := colors; log_format := "json" |},
     set_files (<[path := "[]"%string]> (files w)) w).
Proof.
  destruct w as [fs out clk flt]. cbn [faults]. intros ->.
  unfold __init__. cbn [String.eqb Ascii.eqb Bool.eqb]. unfold_py.
  rewrite lookup_insert_eq. simp_world.
  now rewrite dumps_empty, append_empty, insert_insert_eq.
Qed.

(** C2.  A logger is constructed with the json format and the file sink;
    every I/O call succeeds; N calls follow, each at or above the current
    minimum, none of them finding rotation due.  Then all calls return
    normally and the file parses as a JSON array of N objects, in call order,
    the [level] and [message] of each being those of its call. *)
Theorem C2_json_round_trip (level : string) (console : bool) (path : string)
    (limit : Z) (colors : bool) (w0 : world) (self : Logger) (w1 : world)
    (calls : list (Severity * string)) :
  faults w0 = [] ->
  __init__ level console true path limit colors "json" w0 = (Return self, w1) ->
  admitted self calls ->
  no_rotation self calls w1 ->
  exists w2 recs,
    emits self calls w1 = (Return tt, w2) /\
    (files w2 !! path ≫= loads) = Some (VList recs) /\
    length recs = length calls /\
    Forall2 stores calls recs.
Proof.
  intros Hcalm Hinit Hadm Hrot.
  rewrite init_json_calm in Hinit by assumption.
  assert (Hself : log_to_file self = true /\ file_name self = path)
    by (injection Hinit as <- _; split; reflexivity).
  assert (Hw1 : w1 = set_files (<[path := "[]"%string]> (files w0)) w0)
    by (injection Hinit as _ <-; reflexivity).
  destruct Hself as [Hfile Hpath].
  assert (Hcalm1 : faults w1 = []) by (subst w1; exact Hcalm).
  assert (Hl1 : files w1 !! file_name self = Some (dumps (VList []))).
  { subst w1. rewrite Hpath. cbn [files set_files]. apply lookup_insert_eq. }
  destruct (emits_append self calls Hfile w1 [] Hcalm1 Hl1 Hadm Hrot)
    as (w2 & recs & E & _ & Hl & Hst).
  exists w2, recs. split; [exact E|]. rewrite Hpath in Hl. cbn [app] in Hl.
  rewrite Hl. cbn. rewrite JsonFacts.loads_dumps.
  repeat split; auto. symmetry. eapply Forall2_length; eauto.
Qed.

(** The scenario of the specification: level DEBUG, format json, path
    [t.log]; [debug("a")] then [info("b")]. *)
Lemma C2_json_round_trip_witness :
  let w0 := {| files := ∅; stdout := []; clock := []; faults := [] |} in
  let self := {| current_level := Finite 0; log_to_console := true;
                 log_to_file := true; file_name := "t.log";
                 max_file_size := 0; use_colors := true;
                 log_format := "json" |} in
  let w1 := set_files {[ "t.log"%string := "[]"%string ]} w0 in
  let calls := [(DEBUG, "a"%string); (INFO, "b"%string)] in
  exists w2 recs,
    emits self calls w1 = (Return tt, w2) /\
    (files w2 !! "t.log"%string ≫= loads) = Some (VList recs) /\
    length recs = length calls /\
    Forall2 stores calls recs.
Proof.
  intros w0 self w1 calls.
  apply (C2_json_round_trip "DEBUG" true "t.log" 0 true w0 self w1 calls).
  - reflexivity.
  - reflexivity.
  - repeat constructor.
  - repeat split.
Defined.

(** ** The top-level value of the JSON file *)

Lemma holds_array_same_file (w w' : world) (path : string) :
  files w' !! path = files w !! path -> holds_array w path -> holds_array w' path.
Proof. unfold holds_array. now intros ->. Qed.

Lemma init_json_file (level : string) (console : bool) (path : string)
    (limit : Z) (colors : bool) (w0 : world) :
  exists self w1,
    __init__ level console true path limit colors "json" w0 = (Return self, w1) /\
    intact_or_array w0 w1 path /\
    (faults w0 = [] -> holds_array w1 path).
Proof.
  destruct w0 as [fs out clk flt]. unfold __init__.
  cbn [String.eqb Ascii.eqb Bool.eqb].
  run_py; eexists _, _; (split; [reflexivity|]); (split; [settle_file|]);
    simp_world; try discriminate.
  intros _. norm_files. apply holds_array_dumps.
Qed.

(** With every call succeeding, rotation in the json format leaves the file
    as it was or leaves it holding an array. *)
Lemma rotate_file_json_calm (self : Logger) (w : world) :
  log_format self = "json"%string -> faults w = [] ->
  files (snd (_rotate_file self w)) !! file_name self = files w !! file_name self \/
  (rotation_due self w = true /\
   faults (snd (_rotate_file self w)) = [] /\
   files (snd (_rotate_file self w)) !! file_name self = Some (dumps (VList []))).
Proof.
  intros Hjson Hcalm. destruct (rotation_due self w) eqn:Hdue.
  - right. split; [reflexivity|].
    split; [now apply rotate_calm|].
    assert (Hf : exists text, files w !! file_name self = Some text).
    { unfold rotation_due in Hdue. apply andb_true_iff in Hdue as [_ Hdue].
      destruct (files w !! file_name self); [eauto | discriminate]. }
    destruct Hf as [text Hf].
    rewrite (rotate_due self w text Hcalm Hf Hdue). cbn [snd files set_files].
    rewrite lookup_insert_eq. unfold fresh_file. now rewrite Hjson.
  - left. now rewrite rotate_not_due.
Qed.

(** With every call succeeding, the file sink leaves the file as it was
    (nothing to read, or a value that is not an array) or holding an array. *)
Lemma append_record_calm (path : string) (rec : value) (w : world) :
  faults w = [] ->
  files (snd (append_record path rec w)) !! path = files w !! path \/
  holds_array (snd (append_record path rec w)) path.
Proof.
  intros Hcalm. destruct (files w !! path) as [text|] eqn:Hf.
  - destruct (loads text) as [v|] eqn:Hl.
    + destruct v;
        try (left; erewrite append_record_not_array by (eauto; discriminate);
             exact Hf).
      right. erewrite append_record_array by eauto.
      destruct w. apply holds_array_dumps.
    + right. erewrite append_record_invalid by eauto.
      destruct w. apply holds_array_dumps.
  - left. rewrite append_record_missing by assumption. exact Hf.
Qed.

(** C9.  For a logger of the json format: whatever fails, rotation and
    every call either complete no write to the log (it is as before, or moved
    away, or left empty by the write that failed) or leave it with a JSON
    array as its top-level value; with every I/O call succeeding they leave
    it as it was or holding an array, so a file that holds an array holds one
    after every call; and construction, which cannot raise, leaves an array
    when its write succeeds. *)
Theorem C9_top_level_array (self : Logger) :
  log_format self = "json"%string ->
  (forall w, intact_or_array w (snd (_rotate_file self w)) (file_name self)) /\
  (forall L message w,
     intact_or_array w (snd (emit self L message w)) (file_name self)) /\
  (forall L message w,
     faults w = [] ->
     files (snd (emit self L message w)) !! file_name self
       = files w !! file_name self \/
     holds_array (snd (emit self L message w)) (file_name self)) /\
  (forall L message w,
     faults w = [] -> holds_array w (file_name self) ->
     fst (emit self L message w) = Return tt /\
     holds_array (snd (emit self L message w)) (file_name self)) /\
  (forall level console path limit colors w0,
     exists self' w1,
       __init__ level console true path limit colors "json" w0
         = (Return self', w1) /\
       intact_or_array w0 w1 path /\
       (faults w0 = [] -> holds_array w1 path)).
Proof.
  intros Hjson.
  assert (Hcalm : forall L message w,
             faults w = [] ->
             files (snd (emit self L message w)) !! file_name self
               = files w !! file_name self \/
             holds_array (snd (emit self L message w)) (file_name self)).
  { intros L message w Hw. rewrite emit_stages.
    destruct (reaches _ _); [|now left].
    destruct (after_console_files self L message w) as [Efs Eflt].
    destruct (log_to_file self); [|left; cbn [snd]; now rewrite Efs].
    unfold bind.
    destruct (rotate_returns self (after_console self L message w))
      as (w2 & E & _).
    pose proof (rotate_file_json_calm self (after_console self L message w)
                  Hjson ltac:(congruence)) as Hrot.
    pose proof (rotate_calm self (after_console self L message w)
                  ltac:(congruence)) as Hflt.
    rewrite E in *. cbn [snd] in Hrot, Hflt. rewrite Efs in Hrot.
    destruct Hrot as [Hsame | (_ & _ & Hnew)].
    - destruct (append_record_calm (file_name self)
                  (record self L (timestamp_at w) message) w2 Hflt) as [H | H];
        [left; congruence | now right].
    - right. erewrite append_record_array;
        [| exact Hflt | exact Hnew | apply JsonFacts.loads_dumps].
      destruct w2. apply holds_array_dumps. }
  split; [|split; [|split; [|split]]].
  - intros w. now apply rotate_file_json.
  - intros L message w. rewrite emit_stages.
    destruct (reaches _ _); [|now left].
    destruct (after_console_files self L message w) as [Efs _].
    destruct (log_to_file self); [|left; cbn [snd]; now rewrite Efs].
    unfold bind.
    destruct (rotate_returns self (after_console self L message w))
      as (w2 & E & _).
    pose proof (rotate_file_json self (after_console self L message w) Hjson)
      as Hrot.
    rewrite E in *. cbn [snd] in Hrot. unfold intact_or_array in *.
    rewrite Efs in Hrot.
    destruct (append_record_file (file_name self)
                (record self L (timestamp_at w) message) w2) as [H | [H | H]];
      [| tauto | tauto].
    rewrite H. destruct Hrot as [? | [? | [? | ?]]]; auto.
    right; right; right. now apply (holds_array_same_file w2).
  - exact Hcalm.
  - intros L message w Hw Harr. split.
    + rewrite emit_stages. destruct (reaches _ _); [|reflexivity].
      destruct (after_console_files self L message w) as [Efs Eflt].
      destruct (log_to_file self); [|reflexivity].
      unfold bind.
      destruct (rotate_returns self (after_console self L message w))
        as (w2 & E & _).
      pose proof (rotate_file_json_calm self (after_console self L message w)
                    Hjson ltac:(congruence)) as Hrot.
      pose proof (rotate_calm self (after_console self L message w)
                    ltac:(congruence)) as Hflt.
      rewrite E in *. cbn [snd] in Hrot, Hflt. rewrite Efs in Hrot.
      assert (H2 : holds_array w2 (file_name self)).
      { destruct Hrot as [Hsame | (_ & _ & Hnew)].
        - now apply (holds_array_same_file w).
        - exists []. rewrite Hnew. cbn. apply JsonFacts.loads_dumps. }
      destruct H2 as [l Hl].
      destruct (files w2 !! file_name self) as [text|] eqn:Hf; [|discriminate].
      cbn in Hl. now erewrite append_record_array by eauto.
    + destruct (Hcalm L message w Hw) as [H | H]; [|exact H].
      now apply (holds_array_same_file w).
  - intros. apply init_json_file.
Qed.

(** A logger of the json format writing to [t.log]. *)
Lemma C9_top_level_array_witness :
  let self := {| current_level := Finite 0; log_to_console := false;
                 log_to_file := true; file_name := "t.log";
                 max_file_size := 64; use_colors := false;
                 log_format := "json" |} in
  (forall w, intact_or_array w (snd (_rotate_file self w)) (file_name self)) /\
  (forall L message w,
     intact_or_array w (snd (emit self L message w)) (file_name self)) /\
  (forall L message w,
     faults w = [] ->
     files (snd (emit self L message w)) !! file_name self
       = files w !! file_name self \/
     holds_array (snd (emit self L message w)) (file_name self)) /\
  (forall L message w,
     faults w = [] -> holds_array w (file_name self) ->
     fst (emit self L message w) = Return tt /\
     holds_array (snd (emit self L message w)) (file_name self)) /\
  (forall level console path limit colors w0,
     exists self' w1,
       __init__ level console true path limit colors "json" w0
         = (Return self', w1) /\
       intact_or_array w0 w1 path /\
       (faults w0 = [] -> holds_array w1 path)).
Proof.
  intros self. apply (C9_top_level_array self). reflexivity.
Defined.

(** ** The format and the file sink *)

Lemma rotate_format_not_due (self : Logger) (format : string) (w : world) :
  rotation_due self w = false ->
  _rotate_file (with_format format self) w = _rotate_file self w.
Proof.
  destruct w as [fs out clk flt]. unfold rotation_due, _rotate_file.
  cbn [files with_format max_file_size file_name log_format]. intros Hdue.
  destruct (max_file_size self >? 0)%Z; [|reflexivity].
  cbn [andb] in Hdue. unfold_py.
  destruct (fs !! file_name self) as [text|] eqn:Hf.
  - destruct flt as [|[?|] [|[?|] ?]];
      repeat first [rewrite Hf | rewrite Hdue | progress simp_world];
      reflexivity.
  - destruct flt as [|[?|] ?];
      repeat first [rewrite Hf | progress simp_world]; reflexivity.
Qed.

Lemma marker_not_json : loads ("Log rotated." +:+ nl)%string = None.
Proof. reflexivity. Qed.

(** With every call succeeding, rotation followed by the file sink leaves
    the same world in the text format as in the json format. *)
Lemma file_sink_text_json_calm (self : Logger) (rec : value) (w : world) :
  faults w = [] ->
  (_rotate_file (with_format "text" self) ;; append_record (file_name self) rec) w =
  (_rotate_file (with_format "json" self) ;; append_record (file_name self) rec) w.
Proof.
  intros Hcalm. destruct (rotation_due self w) eqn:Hdue.
  - assert (Hf : exists text, files w !! file_name self = Some text).
    { unfold rotation_due in Hdue. apply andb_true_iff in Hdue as [_ Hdue].
      destruct (files w !! file_name self); [eauto | discriminate]. }
    destruct Hf as [text Hf]. unfold bind.
    rewrite (rotate_due (with_format "text" self) w text Hcalm Hf Hdue).
    rewrite (rotate_due (with_format "json" self) w text Hcalm Hf Hdue).
    cbn [with_format file_name log_format fresh_file String.eqb Ascii.eqb Bool.eqb].
    erewrite append_record_invalid;
      [| exact Hcalm | cbn [files set_files]; apply lookup_insert_eq
       | exact marker_not_json].
    erewrite append_record_array;
      [| exact Hcalm | cbn [files set_files]; apply lookup_insert_eq
       | reflexivity].
    cbn [files set_files app]. now rewrite !insert_insert_eq.
  - unfold bind. now rewrite !rotate_format_not_due by assumption.
Qed.

(** C10.  In an admitted call with the file sink enabled, the format of the
    logger reaches rotation and nothing else: the console stage, the record
    and the read-append-rewrite step, with its recovery from text that is
    not JSON, are those of the logger whatever its format.  So the call
    leaves the same result and the same world in the text format as in the
    json format whenever rotation is not due, and also, with every I/O call
    succeeding, when it is. *)
Theorem C10_file_sink_ignores_format (self : Logger) (L : Severity)
    (message : string) (w : world) :
  (forall format,
     reaches (rank L) (current_level self) = true ->
     log_to_file self = true ->
     emit (with_format format self) L message w =
       (_rotate_file (with_format format self) ;;
        append_record (file_name self) (record self L (timestamp_at w) message))
         (after_console self L message w)) /\
  (forall format,
     rotation_due self w = false ->
     emit (with_format format self) L message w = emit self L message w) /\
  (rotation_due self w = false \/ faults w = [] ->
   emit (with_format "text" self) L message w =
   emit (with_format "json" self) L message w).
Proof.
  assert (Hstages : forall format,
             emit (with_format format self) L message w =
             if reaches (rank L) (current_level self) then
               if log_to_file self then
                 (_rotate_file (with_format format self) ;;
                  append_record (file_name self)
                    (record self L (timestamp_at w) message))
                   (after_console self L message w)
               else (Return tt, after_console self L message w)
             else (Return tt, w))
    by (intros; now rewrite emit_stages).
  split; [|split].
  - intros format HL Hf. now rewrite Hstages, HL, Hf.
  - intros format Hdue. rewrite Hstages, emit_stages. unfold bind.
    rewrite rotate_format_not_due; [reflexivity|].
    now rewrite rotation_due_after_console.
  - intros H. rewrite !Hstages.
    destruct (reaches _ _); [|reflexivity].
    destruct (log_to_file self); [|reflexivity].
    destruct H as [Hdue | Hcalm].
    + unfold bind. rewrite !rotate_format_not_due;
        [reflexivity | | ]; now rewrite rotation_due_after_console.
    + apply file_sink_text_json_calm.
      destruct (after_console_files self L message w) as [_ E]. congruence.
Qed.

(** ** Where the code departs from its documentation *)

(** C3 fails on the code.  A logger of the text format is constructed and
    [info("hello")] is called: the line [Logger initialized.] that
    construction wrote is gone, and the file is the JSON array of the one
    record. *)
Lemma C3_text_marker_lost :
  let w0 := {| files := ∅; stdout := []; clock := []; faults := [] |} in
  exists self w1 w2,
    __init__ "INFO" false true "log.txt" 0 false "text" w0 = (Return self, w1) /\
    files w1 !! "log.txt"%string = Some ("Logger initialized." +:+ nl)%string /\
    info self "hello" w1 = (Return tt, w2) /\
    files w2 !! "log.txt"%string =
      Some (dumps (VList [record self INFO (timestamp_at w1) "hello"])) /\
    (files w2 !! "log.txt"%string ≫= String.get 0) = Some "["%char.
Proof.
  eexists _, _, _. split; [vm_compute; reflexivity|].
  split; [reflexivity|]. split; [vm_compute; reflexivity|].
  split; vm_compute; reflexivity.
Qed.

(** C6 fails on the code.  With every I/O call succeeding, a call that
    finds valid JSON that is not an array raises [AttributeError], after the
    console line was printed; and when the text read is not JSON and the file
    cannot be opened to rewrite it, the [OSError] of the handler's own
    [open] reaches the caller. *)
Lemma C6_exceptions_escape :
  let json := {| current_level := Finite 1; log_to_console := true;
                 log_to_file := true; file_name := "log.txt";
                 max_file_size := 0; use_colors := false;
                 log_format := "json" |} in
  let text := with_format "text" json in
  let w := {| files := {[ "log.txt"%string := "{}"%string ]};
              stdout := []; clock := []; faults := [] |} in
  let w' := {| files := {[ "log.txt"%string := ("Logger initialized." +:+ nl)%string ]};
               stdout := []; clock := [];
               faults := [None; None; Some "[Errno 28] ENOSPC"%string] |} in
  (fst (info json "hello" w) = Raise AttributeError /\
   stdout (snd (info json "hello" w)) = ["[2000-01-01 00:00:00][INFO] hello"%string]) /\
  (fst (info text "hello" w') = Raise (OSError "[Errno 28] ENOSPC") /\
   stdout (snd (info text "hello" w')) = ["[2000-01-01 00:00:00][INFO] hello"%string]).
Proof. repeat split; vm_compute; reflexivity. Qed.

(** C7 fails on the code for the text format.  When the file cannot be
    opened, construction in the json format prints the error and returns the
    logger; in the text format the [OSError] reaches the caller. *)
Lemma C7_text_init_raises :
  let w0 := {| files := ∅; stdout := []; clock := [];
               faults := [Some "[Errno 30] EROFS"%string] |} in
  fst (__init__ "INFO" true true "log.txt" 0 true "text" w0)
    = Raise (OSError "[Errno 30] EROFS") /\
  exists self w1,
    __init__ "INFO" true true "log.txt" 0 true "json" w0 = (Return self, w1) /\
    stdout w1 = ["Error initializing log file: [Errno 30] EROFS"%string].
Proof.
  split; [vm_compute; reflexivity|].
  eexists _, _. split; [vm_compute; reflexivity | reflexivity].
Qed.

End Properties.

(* ===================================================================== *)
(** * Further properties of the methods *)
(* ===================================================================== *)

Module Coverage.
Import Json Py Logger Pipeline Behaviour JsonFacts Properties.
Local Open Scope py_scope.

(** ** Level names *)

Lemma upper_char_idem (c : ascii) : upper_char (upper_char c) = upper_char c.
Proof. ascii_cases c; reflexivity. Qed.

Lemma upper_idem (s : string) : upper (upper s) = upper s.
Proof.
  induction s as [|c s IH]; [reflexivity|].
  cbn [upper]. now rewrite upper_char_idem, IH.
Qed.

(** A key of [LEVELS] is the name of one of the six levels, with its rank. *)
Lemma LEVELS_resolve (s : string) :
  (exists L, s = name L /\ lookup_key s LEVELS = Some (rank L)) \/
  ((forall L, s <> name L) /\ lookup_key s LEVELS = None).
Proof.
  unfold LEVELS. cbn [lookup_key].
  destruct (String.eqb_spec s "DEBUG") as [->|H0]; [left; now exists DEBUG|].
  destruct (String.eqb_spec s "INFO") as [->|H1]; [left; now exists INFO|].
  destruct (String.eqb_spec s "WARNING") as [->|H2]; [left; now exists WARNING|].
  destruct (String.eqb_spec s "ERROR") as [->|H3]; [left; now exists ERROR|].
  destruct (String.eqb_spec s "CRITICAL") as [->|H4]; [left; now exists CRITICAL|].
  destruct (String.eqb_spec s "TRACE") as [->|H5]; [left; now exists TRACE|].
  right. split; [|reflexivity]. intros []; assumption.
Qed.

(** X1.  [set_level] resolves a name whatever its case: when the name in
    upper case is one of the six it stores that rank, otherwise it stores the
    rank of INFO and raises nothing; it changes no other attribute, and of
    two calls in a row the second wins. *)
Theorem X1_set_level_resolves (self : Logger) (s : string) :
  ((exists L, upper s = name L /\
              current_level (set_level self s) = Finite (rank L)) \/
   ((forall L, upper s <> name L) /\
    current_level (set_level self s) = Finite (rank INFO))) /\
  set_level self (upper s) = set_level self s /\
  (log_to_console (set_level self s) = log_to_console self /\
   log_to_file (set_level self s) = log_to_file self /\
   file_name (set_level self s) = file_name self /\
   max_file_size (set_level self s) = max_file_size self /\
   use_colors (set_level self s) = use_colors self /\
   log_format (set_level self s) = log_format self) /\
  (forall s', set_level (set_level self s') s = set_level self s).
Proof.
  split; [|split; [|split]].
  - unfold set_level. cbn [current_level set_current_level].
    destruct (LEVELS_resolve (upper s)) as [(L & E & ->) | (H & ->)];
      [left; eauto | right; split; [exact H | reflexivity]].
  - unfold set_level. now rewrite upper_idem.
  - repeat split.
  - reflexivity.
Qed.

Lemma set_level_range (self : Logger) (s : string) :
  exists z, current_level (set_level self s) = Finite z /\ (-1 <= z <= 4)%Z /\
            (z = -1 <-> upper s = "TRACE"%string).
Proof.
  unfold set_level. cbn [current_level set_current_level].
  destruct (LEVELS_resolve (upper s)) as [(L & E & ->) | (H & ->)].
  - exists (rank L). split; [reflexivity|]. rewrite E.
    destruct L; cbn; (split; [lia|]); split; intros; try lia; try discriminate;
      reflexivity.
  - exists 1%Z. split; [reflexivity|]. split; [lia|]. split; [lia|].
    intros E. now destruct (H TRACE).
Qed.

(** X2.  Whatever name [set_level] is given, CRITICAL stays admitted, so
    with the console sink enabled [critical] prints its line; TRACE is
    admitted exactly when the name is TRACE in some case; and a level at
    least as severe as an admitted one is admitted. *)
Theorem X2_set_level_never_silences_critical (self : Logger) (s : string) :
  reaches (rank CRITICAL) (current_level (set_level self s)) = true /\
  (reaches (rank TRACE) (current_level (set_level self s)) = true <->
   upper s = "TRACE"%string) /\
  (forall L L',
     (rank L <= rank L')%Z ->
     reaches (rank L) (current_level (set_level self s)) = true ->
     reaches (rank L') (current_level (set_level self s)) = true) /\
  (forall message w,
     log_to_console self = true ->
     exists rest,
       stdout (snd (emit (set_level self s) CRITICAL message w)) =
         stdout w
         ++ console_line self CRITICAL (timestamp_at w) message :: rest).
Proof.
  destruct (set_level_range self s) as (z & Hz & Hrange & Htrace).
  assert (Hcrit : reaches (rank CRITICAL) (current_level (set_level self s)) = true).
  { rewrite Hz. cbn. apply Z.leb_le. lia. }
  split; [exact Hcrit|]. split; [|split].
  - rewrite Hz. cbn. rewrite <- Htrace. rewrite Z.leb_le. lia.
  - intros L L' Hle. rewrite Hz. cbn. rewrite !Z.leb_le. lia.
  - intros message w Hcon. rewrite emit_stages, Hcrit.
    assert (Hline : stdout (after_console (set_level self s) CRITICAL message w)
                    = stdout w ++ [console_line self CRITICAL (timestamp_at w) message]).
    { rewrite after_console_stdout. cbn [log_to_console set_level set_current_level].
      now rewrite Hcon. }
    destruct (log_to_file (set_level self s)).
    + unfold bind.
      destruct (rotate_returns (set_level self s)
                  (after_console (set_level self s) CRITICAL message w))
        as (w' & -> & Hout & _).
      destruct (append_record_stdout (file_name (set_level self s))
                  (record (set_level self s) CRITICAL (timestamp_at w) message) w')
        as (notice & E & _).
      exists notice. rewrite E, Hout, Hline, <- app_assoc. reflexivity.
    + exists []. cbn [snd]. exact Hline.
Qed.

(** ** [_log] called with a level name *)

Lemma emit_is_log (self : Logger) (L : Severity) (message : string) :
  emit self L message = _log self (name L) message.
Proof. destruct L; reflexivity. Qed.

(** X3.  [_log] looks the level up as it is written: for the six names in
    upper case it is the entry point of that level; for any other string,
    lower-case names and RESET included, it raises [KeyError] before
    anything is printed, read or written. *)
Theorem X3_log_unknown_level (self : Logger) (level : string) :
  ((exists L, level = name L /\
              forall message w, _log self level message w = emit self L message w) \/
   ((forall L, level <> name L) /\
    forall message w, _log self level message w = (Raise KeyError, w))) /\
  (forall message w, _log self "info" message w = (Raise KeyError, w)) /\
  (forall message w, _log self "RESET" message w = (Raise KeyError, w)).
Proof.
  split; [|split; reflexivity].
  destruct (LEVELS_resolve level) as [(L & -> & _) | (H & E)].
  - left. exists L. split; [reflexivity|]. intros. now rewrite emit_is_log.
  - right. split; [exact H|]. intros message w.
    unfold _log, bind, item. now rewrite E.
Qed.

(** ** Timestamps *)

Lemma list_ascii_app (a b : string) :
  list_ascii_of_string (a +:+ b) = list_ascii_of_string a ++ list_ascii_of_string b.
Proof.
  induction a as [|c a IH]; [reflexivity|].
  change (String c a +:+ b)%string with (String c (a +:+ b)).
  cbn [list_ascii_of_string]. now rewrite IH.
Qed.

Lemma string_length_list (s : string) :
  String.length s = length (list_ascii_of_string s).
Proof. induction s as [|c s IH]; [reflexivity|]. cbn. now rewrite IH. Qed.

Lemma zero_padded_chars (width : nat) (n : N) :
  list_ascii_of_string (zero_padded width n) =
  repeat "0"%char (width - length (nat_chars n)) ++ nat_chars n.
Proof.
  unfold zero_padded.
  rewrite list_ascii_app, !list_ascii_of_string_of_list_ascii.
  now rewrite string_length_list, list_ascii_of_string_of_list_ascii.
Qed.

Lemma uint_chars_digits (u : Decimal.uint) :
  Forall (fun c => is_digit c = true) (uint_chars u).
Proof. induction u; cbn [uint_chars]; constructor; auto. Qed.

Lemma zero_padded_digits (width : nat) (n : N) : all_digits (zero_padded width n).
Proof.
  unfold all_digits. rewrite zero_padded_chars. apply Forall_app. split.
  - induction (width - length (nat_chars n))%nat; cbn [repeat]; constructor; auto.
  - apply uint_chars_digits.
Qed.

Lemma zero_padded_length (width : nat) (n : N) :
  (length (nat_chars n) <= width)%nat ->
  String.length (zero_padded width n) = width.
Proof.
  intros H. rewrite string_length_list, zero_padded_chars, length_app, repeat_length.
  lia.
Qed.

(** The numbers below [bound] have at most [width] digits, by enumeration. *)
Lemma digits_bound (width bound : nat) :
  forallb (fun k => (length (nat_chars (N.of_nat k)) <=? width)%nat) (seq 0 bound)
    = true ->
  forall n, (n < N.of_nat bound)%N -> (length (nat_chars n) <= width)%nat.
Proof.
  intros H n Hn. rewrite forallb_forall in H.
  specialize (H (N.to_nat n)). rewrite N2Nat.id in H.
  apply Nat.leb_le, H, in_seq. lia.
Qed.

Lemma two_digits (n : N) : (n < 100)%N -> (length (nat_chars n) <= 2)%nat.
Proof. apply (digits_bound 2 100). vm_compute. reflexivity. Qed.

Lemma four_digits (n : N) : (n < 10000)%N -> (length (nat_chars n) <= 4)%nat.
Proof. apply (digits_bound 4 (100 * 100)). vm_compute. reflexivity. Qed.

(** X4.  [_format_timestamp] never raises and advances nothing but the
    clock.  For a reading with a year below 10000 the string it returns is
    [YYYY-MM-DD HH:MM:SS]: six runs of digits of widths 4, 2, 2, 2, 2 and 2,
    zero-padded, with these separators, 19 characters in all. *)
Theorem X4_timestamp_shape (w : world) :
  four_digit_year (now w) ->
  exists y mo d h mi s,
    _format_timestamp w =
      (Return (y +:+ "-" +:+ mo +:+ "-" +:+ d +:+ " " +:+ h +:+ ":" +:+ mi
               +:+ ":" +:+ s)%string, tick w) /\
    (String.length y = 4 /\ String.length mo = 2 /\ String.length d = 2 /\
     String.length h = 2 /\ String.length mi = 2 /\ String.length s = 2)%nat /\
    (all_digits y /\ all_digits mo /\ all_digits d /\
     all_digits h /\ all_digits mi /\ all_digits s) /\
    String.length (timestamp_at w) = 19%nat /\
    (files (tick w) = files w /\ stdout (tick w) = stdout w /\
     faults (tick w) = faults w /\ clock (tick w) = tl (clock w)).
Proof.
  intros (Hy & Hmo & Hd & Hh & Hmi & Hs).
  pose proof (zero_padded_length 4 _ (four_digits _ Hy)) as Ly.
  pose proof (zero_padded_length 2 _ (two_digits _ Hmo)) as Lmo.
  pose proof (zero_padded_length 2 _ (two_digits _ Hd)) as Ld.
  pose proof (zero_padded_length 2 _ (two_digits _ Hh)) as Lh.
  pose proof (zero_padded_length 2 _ (two_digits _ Hmi)) as Lmi.
  pose proof (zero_padded_length 2 _ (two_digits _ Hs)) as Ls.
  exists (zero_padded 4 (tm_year (now w))), (zero_padded 2 (tm_mon (now w))),
    (zero_padded 2 (tm_mday (now w))), (zero_padded 2 (tm_hour (now w))),
    (zero_padded 2 (tm_min (now w))), (zero_padded 2 (tm_sec (now w))).
  split; [apply format_timestamp_run|].
  split; [repeat split; assumption|].
  split; [repeat split; apply zero_padded_digits|].
  split.
  - unfold timestamp_at, timestamp_of.
    rewrite string_length_list, !list_ascii_app, !length_app,
      <- !string_length_list, Ly, Lmo, Ld, Lh, Lmi, Ls. reflexivity.
  - unfold tick. destruct (clock w) eqn:E; repeat split. exact E.
Qed.

(** A reading of 7 March 2024, 09:05:02. *)
Lemma X4_timestamp_shape_witness :
  let w := {| files := ∅; stdout := [];
              clock := [{| tm_year := 2024; tm_mon := 3; tm_mday := 7;
                           tm_hour := 9; tm_min := 5; tm_sec := 2 |}];
              faults := [] |} in
  exists y mo d h mi s,
    _format_timestamp w =
      (Return (y +:+ "-" +:+ mo +:+ "-" +:+ d +:+ " " +:+ h +:+ ":" +:+ mi
               +:+ ":" +:+ s)%string, tick w) /\
    (String.length y = 4 /\ String.length mo = 2 /\ String.length d = 2 /\
     String.length h = 2 /\ String.length mi = 2 /\ String.length s = 2)%nat /\
    (all_digits y /\ all_digits mo /\ all_digits d /\
     all_digits h /\ all_digits mi /\ all_digits s) /\
    String.length (timestamp_at w) = 19%nat /\
    (files (tick w) = files w /\ stdout (tick w) = stdout w /\
     faults (tick w) = faults w /\ clock (tick w) = tl (clock w)).
Proof.
  intros w. apply (X4_timestamp_shape w). repeat split.
Defined.

(** ** Construction *)

(** X5.  With every I/O call succeeding, [__init__] returns a logger that
    holds its arguments, the level resolved as [set_level] resolves it, and
    prints nothing.  Without the file sink it leaves the world as it was.
    With it, the file at the path is replaced, whatever it held, by [[]] for
    the json format and by the line [Logger initialized.] for any other
    format; no other file is touched. *)
Theorem X5_construction (level : string) (console file : bool) (path : string)
    (limit : Z) (colors : bool) (format : string) (w : world) :
  faults w = [] ->
  exists self w',
    __init__ level console file path limit colors format w = (Return self, w') /\
    (current_level self = current_level (set_level self level) /\
     log_to_console self = console /\ log_to_file self = file /\
     file_name self = path /\ max_file_size self = limit /\
     use_colors self = colors /\ log_format self = format) /\
    stdout w' = stdout w /\
    (file = false -> w' = w) /\
    (file = true ->
     files w' =
       <[path := if String.eqb format "json" then "[]"%string
                 else ("Logger initialized." +:+ nl)%string]> (files w)).
Proof.
  destruct w as [fs out clk flt]. cbn [faults]. intros ->.
  unfold __init__.
  destruct file; [destruct (String.eqb format "json")|]; unfold_py; norm_files;
    eexists _, _; (split; [reflexivity|]); cbn;
    repeat split; try discriminate; reflexivity.
Qed.

(** A text logger on a file system where [log.txt] already exists. *)
Lemma X5_construction_witness :
  let w := {| files := {[ "log.txt"%string := "old text"%string ]};
              stdout := []; clock := []; faults := [] |} in
  exists self w',
    __init__ "warning" true true "log.txt" 0 true "text" w = (Return self, w') /\
    (current_level self = current_level (set_level self "warning") /\
     log_to_console self = true /\ log_to_file self = true /\
     file_name self = "log.txt"%string /\ max_file_size self = 0%Z /\
     use_colors self = true /\ log_format self = "text"%string) /\
    stdout w' = stdout w /\
    (true = false -> w' = w) /\
    (true = true ->
     files w' =
       <["log.txt"%string := if String.eqb "text" "json" then "[]"%string
                 else ("Logger initialized." +:+ nl)%string]> (files w)).
Proof.
  intros w.
  apply (X5_construction "warning" true true "log.txt" 0 true "text" w).
  reflexivity.
Defined.

(** ** What a call touches *)

Ltac other_path :=
  cbn [files snd];
  repeat first [ rewrite lookup_insert_ne by congruence
               | rewrite lookup_delete_ne by congruence ];
  reflexivity.

Lemma rotate_touches (self : Logger) (w : world) (q : string) :
  q <> file_name self -> q <> (file_name self +:+ ".old")%string ->
  files (snd (_rotate_file self w)) !! q = files w !! q.
Proof.
  intros Hp Hold. destruct w as [fs out clk flt]. unfold _rotate_file.
  run_py; other_path.
Qed.

Lemma append_record_touches (path : string) (rec : value) (w : world)
    (q : string) :
  q <> path -> files (snd (append_record path rec w)) !! q = files w !! q.
Proof.
  intros Hp. destruct w as [fs out clk flt]. unfold append_record.
  run_py; other_path.
Qed.

(** X6.  Whatever fails, a call changes no file but the log and its
    [.old] companion; and [.old] changes only in a call that finds rotation
    due. *)
Theorem X6_emit_touches_two_files (self : Logger) (L : Severity)
    (message : string) (w : world) :
  (forall q,
     q <> file_name self -> q <> (file_name self +:+ ".old")%string ->
     files (snd (emit self L message w)) !! q = files w !! q) /\
  (rotation_due self w = false ->
   files (snd (emit self L message w)) !! (file_name self +:+ ".old")%string
     = files w !! (file_name self +:+ ".old")%string).
Proof.
  rewrite emit_stages.
  destruct (after_console_files self L message w) as [Efs _].
  destruct (reaches _ _); [|split; reflexivity].
  destruct (log_to_file self); [|split; intros; cbn [snd]; now rewrite Efs].
  unfold bind.
  destruct (rotate_returns self (after_console self L message w))
    as (w2 & E & _).
  split.
  - intros q Hp Hold.
    pose proof (rotate_touches self (after_console self L message w) q Hp Hold)
      as Hrot.
    rewrite E in *. cbn [snd] in Hrot.
    rewrite append_record_touches by assumption. now rewrite Hrot, Efs.
  - intros Hdue.
    pose proof (rotate_not_due self (after_console self L message w)) as Hrot.
    rewrite rotation_due_after_console in Hrot. specialize (Hrot Hdue).
    rewrite E in *. cbn [snd] in Hrot.
    rewrite append_record_touches by (apply not_eq_sym, path_old_neq).
    now rewrite Hrot, Efs.
Qed.

(** ** A log file that is not there *)

Lemma append_record_absent (path : string) (rec : value) (w : world) :
  files w !! path = None ->
  exists msg w',
    append_record path rec w = (Return tt, w') /\
    files w' = files w /\
    stdout w' = stdout w ++ [("Error writing to log file: " +:+ msg)%string].
Proof.
  destruct w as [fs out clk flt]. cbn [files]. intros Hf.
  unfold append_record. unfold_py.
  destruct flt as [|[msg|] flt]; simp_world; rewrite ?Hf;
    eexists _, _; (split; [reflexivity|]); split; reflexivity.
Qed.

Lemma emit_absent (self : Logger) (L : Severity) (message : string)
    (w : world) :
  files w !! file_name self = None ->
  exists w',
    emit self L message w = (Return tt, w') /\ files w' = files w /\
    (reaches (rank L) (current_level self) = true -> log_to_file self = true ->
     exists msg,
       stdout w' =
         stdout w
         ++ (if log_to_console self
             then [console_line self L (timestamp_at w) message] else [])
         ++ [("Error writing to log file: " +:+ msg)%string]).
Proof.
  intros Hf. rewrite emit_stages.
  destruct (after_console_files self L message w) as [Efs _].
  destruct (reaches _ _); [|eexists; repeat split; discriminate].
  destruct (log_to_file self);
    [|eexists; split; [reflexivity|]; split; [exact Efs | discriminate]].
  unfold bind.
  destruct (rotate_returns self (after_console self L message w))
    as (w2 & E & Hout & _).
  pose proof (rotate_not_due self (after_console self L message w)) as Hrot.
  rewrite rotation_due_after_console in Hrot.
  assert (Hdue : rotation_due self w = false)
    by (unfold rotation_due; rewrite Hf; apply andb_false_r).
  specialize (Hrot Hdue). rewrite E in *. cbn [snd] in Hrot.
  destruct (append_record_absent (file_name self)
              (record self L (timestamp_at w) message) w2)
    as (msg & w3 & -> & Hfs & Hnote); [now rewrite Hrot, Efs|].
  exists w3. split; [reflexivity|]. split; [congruence|].
  intros _ _. exists msg.
  now rewrite Hnote, Hout, after_console_stdout, <- app_assoc.
Qed.

(** X7.  No call creates the log file.  When no file is at the path,
    whatever else fails, every call returns normally and leaves all files as
    they were; an admitted call with the file sink enabled prints, after its
    console line, one notice [Error writing to log file: ...], and its
    record is lost.  So a whole run leaves the path empty. *)
Theorem X7_missing_file_is_never_created (self : Logger) (w : world) :
  files w !! file_name self = None ->
  (forall L message,
     exists w',
       emit self L message w = (Return tt, w') /\ files w' = files w /\
       (reaches (rank L) (current_level self) = true ->
        log_to_file self = true ->
        exists msg,
          stdout w' =
            stdout w
            ++ (if log_to_console self
                then [console_line self L (timestamp_at w) message] else [])
            ++ [("Error writing to log file: " +:+ msg)%string])) /\
  (forall calls,
     exists w',
       emits self calls w = (Return tt, w') /\ files w' = files w).
Proof.
  intros Hf. split; [intros; now apply emit_absent|].
  intros calls. revert w Hf.
  induction calls as [|[L message] calls IH]; intros w Hf.
  - exists w. split; reflexivity.
  - destruct (emit_absent self L message w Hf) as (w1 & E & Hfs & _).
    destruct (IH w1) as (w2 & E2 & Hfs2); [now rewrite Hfs|].
    exists w2. cbn [emits]. unfold bind. rewrite E, E2.
    split; [reflexivity | congruence].
Qed.

(** A json logger whose file could not be created. *)
Lemma X7_missing_file_is_never_created_witness :
  let self := {| current_level := Finite 1; log_to_console := true;
                 log_to_file := true; file_name := "log.txt";
                 max_file_size := 100; use_colors := false;
                 log_format := "json" |} in
  let w := {| files := ∅; stdout := []; clock := []; faults := [] |} in
  (forall L message,
     exists w',
       emit self L message w = (Return tt, w') /\ files w' = files w /\
       (reaches (rank L) (current_level self) = true ->
        log_to_file self = true ->
        exists msg,
          stdout w' =
            stdout w
            ++ (if log_to_console self
                then [console_line self L (timestamp_at w) message] else [])
            ++ [("Error writing to log file: " +:+ msg)%string])) /\
  (forall calls,
     exists w',
       emits self calls w = (Return tt, w') /\ files w' = files w).
Proof.
  intros self w. apply (X7_missing_file_is_never_created self w). reflexivity.
Defined.

(** ** What a call can raise *)

Lemma append_record_raises (path : string) (rec : value) (w : world) :
  fst (append_record path rec w) = Return tt \/
  fst (append_record path rec w) = Raise AttributeError \/
  exists msg, fst (append_record path rec w) = Raise (OSError msg).
Proof.
  destruct w as [fs out clk flt]. unfold append_record.
  run_py; first [ left; reflexivity | right; left; reflexivity
                | right; right; eexists; reflexivity ].
Qed.

(** X8.  A call returns normally or raises [AttributeError] or [OSError],
    never [KeyError] or [ValueError]; with the file sink disabled or the
    level below the minimum it always returns.  With every I/O call
    succeeding it raises exactly when it is admitted, the file sink is
    enabled and the file, as rotation leaves it, holds valid JSON that is not
    an array: then it raises [AttributeError]. *)
Theorem X8_what_emit_raises (self : Logger) (L : Severity) (message : string)
    (w : world) :
  (fst (emit self L message w) = Return tt \/
   fst (emit self L message w) = Raise AttributeError \/
   exists msg, fst (emit self L message w) = Raise (OSError msg)) /\
  (reaches (rank L) (current_level self) && log_to_file self = false ->
   fst (emit self L message w) = Return tt) /\
  (faults w = [] ->
   (fst (emit self L message w) = Return tt \/
    fst (emit self L message w) = Raise AttributeError) /\
   (fst (emit self L message w) = Raise AttributeError <->
    reaches (rank L) (current_level self) = true /\
    log_to_file self = true /\
    exists text v,
      files (snd (_rotate_file self w)) !! file_name self = Some text /\
      loads text = Some v /\ forall l, v <> VList l)).
Proof.
  rewrite emit_stages.
  destruct (reaches _ _); cbn [andb];
    [|split; [now left | split; [reflexivity|]];
      intros _; split; [now left|];
      split; [discriminate | intros (H & _); discriminate]].
  destruct (log_to_file self);
    [|split; [now left | split; [reflexivity|]];
      intros _; split; [now left|];
      split; [discriminate | intros (_ & H & _); discriminate]].
  unfold bind.
  destruct (after_console_files self L message w) as [Efs Eflt].
  destruct (rotate_frame self (after_console self L message w) w Efs Eflt)
    as (_ & Hfs & Hflt).
  destruct (rotate_returns self (after_console self L message w))
    as (w2 & E & _).
  rewrite E in *. cbn [snd] in Hfs, Hflt.
  split; [apply append_record_raises|]. split; [discriminate|].
  intros Hcalm. rewrite (rotate_calm self w Hcalm) in Hflt. rewrite <- Hfs.
  set (rec := record self L (timestamp_at w) message).
  destruct (files w2 !! file_name self) as [text|] eqn:Hf.
  - destruct (loads text) as [v|] eqn:Hl.
    + destruct v;
        try (erewrite append_record_not_array by (eauto; discriminate);
             split; [now right|];
             split; [intros _; repeat split; eexists _, _;
                     repeat split; eauto; discriminate
                    | reflexivity]).
      erewrite append_record_array by eauto.
      split; [now left|]. split; [discriminate|].
      intros (_ & _ & text' & v & Ht & Hv & Hne).
      injection Ht as <-. rewrite Hl in Hv. injection Hv as <-.
      now destruct (Hne l).
    + erewrite append_record_invalid by eauto.
      split; [now left|]. split; [discriminate|].
      intros (_ & _ & text' & v & Ht & Hv & _).
      injection Ht as <-. congruence.
  - rewrite append_record_missing by assumption.
    split; [now left|]. split; [discriminate|].
    intros (_ & _ & text' & v & Ht & _). discriminate.
Qed.

(** ** Rotation followed by the append *)

Lemma loads_empty_array : loads "[]" = Some (VList []).
Proof. reflexivity. Qed.

(** X9.  With every I/O call succeeding, an admitted call that finds the
    file larger than the limit returns normally and leaves the old text under
    [.old] and, at the path, the array of its own record alone, in the json
    format and in any other; nothing but its console line is printed. *)
Theorem X9_rotation_then_append (self : Logger) (L : Severity)
    (message : string) (w : world) (text : string) :
  faults w = [] ->
  reaches (rank L) (current_level self) = true ->
  log_to_file self = true ->
  files w !! file_name self = Some text ->
  (0 < max_file_size self < Z.of_nat (String.length text))%Z ->
  let rec := record self L (timestamp_at w) message in
  exists w',
    emit self L message w = (Return tt, w') /\
    files w' =
      <[file_name self := dumps (VList [rec])]>
        (<[(file_name self +:+ ".old")%string := text]>
           (delete (file_name self) (files w))) /\
    files w' !! (file_name self +:+ ".old")%string = Some text /\
    (files w' !! file_name self ≫= loads) = Some (VList [rec]) /\
    stdout w' =
      stdout w ++ (if log_to_console self
                   then [console_line self L (timestamp_at w) message] else []).
Proof.
  intros Hcalm HL Hfile Hf Hsize rec. subst rec.
  rewrite emit_stages, HL, Hfile. unfold bind.
  set (rec := record self L (timestamp_at w) message).
  destruct (after_console_files self L message w) as [Efs Eflt].
  set (w1 := after_console self L message w) in *.
  assert (Hdue : rotation_due self w1 = true).
  { unfold rotation_due. rewrite Efs, Hf. apply andb_true_iff. split; lia. }
  rewrite (rotate_due self w1 text) by congruence.
  set (w2 := set_files _ w1).
  assert (E : append_record (file_name self) rec w2 =
              (Return tt,
               set_files (<[file_name self := dumps (VList [rec])]> (files w2)) w2)).
  { assert (Hc : faults w2 = []) by (subst w2; cbn; congruence).
    unfold fresh_file in w2. destruct (String.eqb (log_format self) "json").
    - apply (append_record_array _ _ w2 Hc "[]" []);
        [subst w2; cbn [files set_files]; apply lookup_insert_eq
        | apply loads_empty_array].
    - apply (append_record_invalid _ _ w2 Hc ("Log rotated." +:+ nl)%string);
        [subst w2; cbn [files set_files]; apply lookup_insert_eq
        | apply marker_not_json]. }
  rewrite E. eexists. split; [reflexivity|].
  subst w2. cbn [files stdout set_files]. rewrite insert_insert_eq, Efs.
  split; [reflexivity|]. split; [|split].
  - rewrite lookup_insert_ne by apply path_old_neq. apply lookup_insert_eq.
  - rewrite lookup_insert_eq. cbn. apply loads_dumps.
  - subst w1. apply after_console_stdout.
Qed.

(** A text logger with a limit of 10 bytes on a file of 20. *)
Lemma X9_rotation_then_append_witness :
  let self := {| current_level := Finite 1; log_to_console := false;
                 log_to_file := true; file_name := "log.txt";
                 max_file_size := 10; use_colors := false;
                 log_format := "text" |} in
  let w := {| files := {[ "log.txt"%string := "[1, 2, 3, 4, 5, 6, 7]"%string ]};
              stdout := []; clock := []; faults := [] |} in
  let rec := record self ERROR (timestamp_at w) "boom" in
  exists w',
    emit self ERROR "boom" w = (Return tt, w') /\
    files w' =
      <[file_name self := dumps (VList [rec])]>
        (<[(file_name self +:+ ".old")%string := "[1, 2, 3, 4, 5, 6, 7]"%string]>
           (delete (file_name self) (files w))) /\
    files w' !! (file_name self +:+ ".old")%string
      = Some "[1, 2, 3, 4, 5, 6, 7]"%string /\
    (files w' !! file_name self ≫= loads) = Some (VList [rec]) /\
    stdout w' =
      stdout w ++ (if log_to_console self
                   then [console_line self ERROR (timestamp_at w) "boom"] else []).
Proof.
  intros self w.
  apply (X9_rotation_then_append self ERROR "boom" w "[1, 2, 3, 4, 5, 6, 7]");
    try reflexivity.
  cbn. lia.
Defined.

(** ** The text format, call after call *)

Lemma init_marker_not_json : loads ("Logger initialized." +:+ nl)%string = None.
Proof. reflexivity. Qed.

Lemma init_text_calm (level : string) (console : bool) (path : string)
    (limit : Z) (colors : bool) (format : string) (w : world) :
  faults w = [] -> String.eqb format "json" = false ->
  __init__ level console true path limit colors format w =
    (Return {| current_level := Finite (default 1%Z (lookup_key (upper level) LEVELS));
               log_to_console := console; log_to_file := true;
               file_name := path; max_file_size := limit;
               use_colors := colors; log_format := format |},
     set_files (<[path := ("Logger initialized." +:+ nl)%string]> (files w)) w).
Proof.
  destruct w as [fs out clk flt]. cbn [faults]. intros -> Hfmt.
  unfold __init__. rewrite Hfmt. unfold_py. norm_files. reflexivity.
Qed.

(** X10.  A logger is constructed with a format other than json and the
    file sink; every I/O call succeeds; N >= 1 calls follow, each at or above
    the current minimum, none finding rotation due.  Then all calls return
    normally and the file is no list of lines: it parses as a JSON array of
    exactly N objects, in call order, with the [level] and [message] of each
    call; the line written at construction is not among them. *)
Theorem X10_text_format_stores_json (level : string) (console : bool)
    (path : string) (limit : Z) (colors : bool) (format : string)
    (w0 : world) (self : Logger) (w1 : world)
    (calls : list (Severity * string)) :
  faults w0 = [] ->
  String.eqb format "json" = false ->
  __init__ level console true path limit colors format w0 = (Return self, w1) ->
  calls <> [] ->
  admitted self calls ->
  no_rotation self calls w1 ->
  exists w2 recs,
    emits self calls w1 = (Return tt, w2) /\
    (files w2 !! path ≫= loads) = Some (VList recs) /\
    length recs = length calls /\
    Forall2 stores calls recs.
Proof.
  intros Hcalm Hfmt Hinit Hne Hadm Hrot.
  rewrite init_text_calm in Hinit by assumption.
  assert (Hself : log_to_file self = true /\ file_name self = path)
    by (injection Hinit as <- _; split; reflexivity).
  assert (Hw1 : w1 = set_files (<[path := ("Logger initialized." +:+ nl)%string]>
                                  (files w0)) w0)
    by (injection Hinit as _ <-; reflexivity).
  destruct Hself as [Hfile Hpath]. clear Hinit.
  destruct calls as [|[L message] calls]; [congruence|]. clear Hne.
  apply Forall_cons in Hadm as [HL Hadm]. destruct Hrot as [Hdue Hrot].
  assert (Hcalm1 : faults w1 = []) by (subst w1; exact Hcalm).
  assert (Hf1 : files w1 !! file_name self
                = Some ("Logger initialized." +:+ nl)%string).
  { subst w1. rewrite Hpath. cbn [files set_files]. apply lookup_insert_eq. }
  set (rec := record self L (timestamp_at w1) message).
  assert (E : emit self L message w1 =
              (Return tt,
               set_files (<[file_name self := dumps (VList [rec])]>
                            (files (after_console self L message w1)))
                 (after_console self L message w1))).
  { rewrite emit_stages. cbn [fst] in HL. rewrite HL, Hfile. unfold bind.
    destruct (after_console_files self L message w1) as [Efs Eflt].
    rewrite rotate_not_due_calm;
      [| congruence | now rewrite rotation_due_after_console].
    assert (Hc : faults (after_console self L message w1) = []) by congruence.
    apply (append_record_invalid _ _ (after_console self L message w1) Hc
             ("Logger initialized." +:+ nl)%string);
      [now rewrite Efs | apply init_marker_not_json]. }
  rewrite E in Hrot. cbn [snd] in Hrot.
  destruct (after_console_files self L message w1) as [_ Eflt].
  edestruct (emits_append self calls Hfile
               (set_files (<[file_name self := dumps (VList [rec])]>
                             (files (after_console self L message w1)))
                  (after_console self L message w1)) [rec])
    as (w2 & recs & E2 & _ & Hl & Hst);
    [cbn; congruence | cbn [files set_files]; apply lookup_insert_eq
    | exact Hadm | exact Hrot |].
  exists w2, (rec :: recs). cbn [emits]. unfold bind. rewrite E, E2.
  split; [reflexivity|]. rewrite <- Hpath, Hl. cbn.
  rewrite loads_dumps. split; [reflexivity|]. split.
  - cbn. f_equal. symmetry. eapply Forall2_length; eauto.
  - constructor; [apply record_stores | exact Hst].
Qed.

(** The text logger of the defaults, then [error("boom")] and
    [critical("again")]. *)
Lemma X10_text_format_stores_json_witness :
  let w0 := {| files := ∅; stdout := []; clock := []; faults := [] |} in
  let self := {| current_level := Finite 1; log_to_console := true;
                 log_to_file := true; file_name := "log.txt";
                 max_file_size := 0; use_colors := true;
                 log_format := "text" |} in
  let w1 := set_files {[ "log.txt"%string := ("Logger initialized." +:+ nl)%string ]} w0 in
  let calls := [(ERROR, "boom"%string); (CRITICAL, "again"%string)] in
  exists w2 recs,
    emits self calls w1 = (Return tt, w2) /\
    (files w2 !! "log.txt"%string ≫= loads) = Some (VList recs) /\
    length recs = length calls /\
    Forall2 stores calls recs.
Proof.
  intros w0 self w1 calls.
  apply (X10_text_format_stores_json "INFO" true "log.txt" 0 true "text"
           w0 self w1 calls).
  - reflexivity.
  - reflexivity.
  - reflexivity.
  - discriminate.
  - repeat constructor.
  - repeat split.
Defined.

(** ** A rotation that fails half-way *)

Lemma rotate_reopen_fails (self : Logger) (w : world) (text msg : string)
    (rest : list (option string)) :
  faults w = None :: None :: None :: Some msg :: rest ->
  files w !! file_name self = Some text ->
  rotation_due self w = true ->
  _rotate_file self w =
    (Return tt,
     set_faults rest
       (set_files (<[(file_name self +:+ ".old")%string := text]>
                     (delete (file_name self) (files w))) w)).
Proof.
  destruct w as [fs out clk flt]. cbn [faults files]. intros -> Hf Hdue.
  unfold rotation_due in Hdue. cbn [files] in Hdue. rewrite Hf in Hdue.
  apply andb_true_iff in Hdue as [Hmax Hsize].
  unfold _rotate_file. rewrite Hmax. unfold_py.
  repeat first [rewrite Hf | rewrite Hsize | progress simp_world].
  reflexivity.
Qed.

(** X12.  Rotation can lose the log.  In an admitted call that finds
    rotation due, when reading the size and the rename succeed and the
    [open] that would create the fresh file fails, the error is swallowed:
    the old text is under [.old], no file is at the path, the call prints
    its notice and returns normally, and its record is written nowhere. *)
Theorem X12_failed_rotation_loses_log (self : Logger) (L : Severity)
    (message : string) (w : world) (text msg : string)
    (rest : list (option string)) :
  reaches (rank L) (current_level self) = true ->
  log_to_file self = true ->
  files w !! file_name self = Some text ->
  (0 < max_file_size self < Z.of_nat (String.length text))%Z ->
  faults w = None :: None :: None :: Some msg :: rest ->
  exists w' note,
    emit self L message w = (Return tt, w') /\
    files w' = <[(file_name self +:+ ".old")%string := text]>
                 (delete (file_name self) (files w)) /\
    files w' !! file_name self = None /\
    stdout w' =
      stdout w
      ++ (if log_to_console self
          then [console_line self L (timestamp_at w) message] else [])
      ++ [("Error writing to log file: " +:+ note)%string].
Proof.
  intros HL Hfile Hf Hsize Hflt.
  rewrite emit_stages, HL, Hfile. unfold bind.
  destruct (after_console_files self L message w) as [Efs Eflt].
  set (w1 := after_console self L message w) in *.
  assert (Hdue : rotation_due self w1 = true).
  { unfold rotation_due. rewrite Efs, Hf. apply andb_true_iff. split; lia. }
  rewrite (rotate_reopen_fails self w1 text msg rest) by congruence.
  set (w2 := set_faults rest _).
  assert (Hgone : files w2 !! file_name self = None).
  { subst w2. cbn [files set_files set_faults].
    rewrite lookup_insert_ne by (apply not_eq_sym, path_old_neq).
    apply lookup_delete_eq. }
  destruct (append_record_absent (file_name self)
              (record self L (timestamp_at w) message) w2 Hgone)
    as (note & w3 & -> & Hfs & Hout).
  exists w3, note. split; [reflexivity|].
  rewrite Hfs, Hout. subst w2. cbn [files stdout set_files set_faults].
  rewrite Efs. split; [reflexivity|]. split.
  - rewrite lookup_insert_ne by (apply not_eq_sym, path_old_neq).
    apply lookup_delete_eq.
  - subst w1. now rewrite after_console_stdout, <- app_assoc.
Qed.

(** A json logger with a limit of 10 bytes; the fourth I/O call, the [open]
    after the rename, fails. *)
Lemma X12_failed_rotation_loses_log_witness :
  let self := {| current_level := Finite 1; log_to_console := false;
                 log_to_file := true; file_name := "log.txt";
                 max_file_size := 10; use_colors := false;
                 log_format := "json" |} in
  let w := {| files := {[ "log.txt"%string := "[1, 2, 3, 4, 5, 6, 7]"%string ]};
              stdout := []; clock := [];
              faults := [None; None; None; Some "[Errno 28] ENOSPC"%string] |} in
  exists w' note,
    emit self ERROR "boom" w = (Return tt, w') /\
    files w' = <[(file_name self +:+ ".old")%string := "[1, 2, 3, 4, 5, 6, 7]"%string]>
                 (delete (file_name self) (files w)) /\
    files w' !! file_name self = None /\
    stdout w' =
      stdout w
      ++ (if log_to_console self
          then [console_line self ERROR (timestamp_at w) "boom"] else [])
      ++ [("Error writing to log file: " +:+ note)%string].
Proof.
  intros self w.
  apply (X12_failed_rotation_loses_log self ERROR "boom" w
           "[1, 2, 3, 4, 5, 6, 7]" "[Errno 28] ENOSPC" []);
    try reflexivity.
  cbn. lia.
Defined.

(** ** Runs on the console alone *)

Lemma after_console_clock (self : Logger) (L : Severity) (message : string)
    (w : world) :
  clock (after_console self L message w) = tl (clock w).
Proof.
  unfold after_console, tick.
  destruct (log_to_console self), (clock w) eqn:E; cbn; auto.
Qed.

(** X13.  With the file sink disabled a run of calls never raises and
    performs no I/O: the files and the oracle are as they were.  When the
    console sink is enabled it prints exactly the lines of the admitted
    calls, in call order, each stamped with the next reading of the clock;
    calls below the minimum print nothing and do not read the clock. *)
Theorem X13_console_run (self : Logger) (calls : list (Severity * string))
    (w : world) :
  log_to_file self = false ->
  exists w',
    emits self calls w = (Return tt, w') /\
    stdout w' =
      stdout w ++ (if log_to_console self
                   then console_lines self calls (clock w) else []) /\
    clock w' = clock_after self calls (clock w) /\
    files w' = files w /\
    faults w' = faults w.
Proof.
  intros Hfile. revert w.
  induction calls as [|[L message] calls IH]; intros w.
  - exists w. cbn. destruct (log_to_console self); rewrite app_nil_r; auto.
  - cbn [emits console_lines clock_after]. unfold bind.
    rewrite emit_stages, Hfile.
    destruct (reaches (rank L) (current_level self)).
    + destruct (IH (after_console self L message w))
        as (w' & -> & Hout & Hclk & Hfs & Hflt).
      destruct (after_console_files self L message w) as [Efs Eflt].
      exists w'. split; [reflexivity|].
      rewrite Hout, Hclk, Hfs, Hflt, after_console_stdout, after_console_clock,
        <- app_assoc.
      unfold timestamp_at, now.
      destruct (log_to_console self); repeat split; auto.
    + destruct (IH w) as (w' & -> & Hout & Hclk & Hfs & Hflt).
      exists w'. repeat split; auto.
Qed.

(** The scenario of a WARNING logger on the console: [info] is dropped,
    [error] is printed. *)
Lemma X13_console_run_witness :
  let self := {| current_level := Finite 2; log_to_console := true;
                 log_to_file := false; file_name := "log.txt";
                 max_file_size := 0; use_colors := true;
                 log_format := "text" |} in
  let w := {| files := ∅; stdout := []; clock := []; faults := [] |} in
  let calls := [(INFO, "hello"%string); (ERROR, "boom"%string)] in
  exists w',
    emits self calls w = (Return tt, w') /\
    stdout w' =
      stdout w ++ (if log_to_console self
                   then console_lines self calls (clock w) else []) /\
    clock w' = clock_after self calls (clock w) /\
    files w' = files w /\
    faults w' = faults w.
Proof.
  intros self w calls. apply (X13_console_run self calls w). reflexivity.
Defined.

(** ** Construction when I/O fails *)

Ltac looked_up :=
  first [ reflexivity
        | apply lookup_insert_eq
        | rewrite lookup_insert_eq; reflexivity ].

(** X14.  Whatever fails, construction in the json format returns a logger:
    either the file holds [[]] and nothing was printed, or one notice
    [Error initializing log file: ...] was printed and the file is as it was
    or was left empty.  In any other format construction either succeeds,
    leaving the line [Logger initialized.], or raises the [OSError] of the
    call that failed, printing nothing, the file being as it was or left
    empty. *)
Theorem X14_construction_failures (level : string) (console : bool)
    (path : string) (limit : Z) (colors : bool) (format : string) (w : world) :
  (exists self w',
     __init__ level console true path limit colors "json" w = (Return self, w') /\
     ((files w' !! path = Some "[]"%string /\ stdout w' = stdout w) \/
      (exists msg,
         stdout w' = stdout w ++ [("Error initializing log file: " +:+ msg)%string] /\
         (files w' !! path = files w !! path \/
          files w' !! path = Some EmptyString)))) /\
  (String.eqb format "json" = false ->
   (exists self w',
      __init__ level console true path limit colors format w = (Return self, w') /\
      files w' !! path = Some ("Logger initialized." +:+ nl)%string /\
      stdout w' = stdout w) \/
   (exists msg w',
      __init__ level console true path limit colors format w
        = (Raise (OSError msg), w') /\
      stdout w' = stdout w /\
      (files w' !! path = files w !! path \/
       files w' !! path = Some EmptyString))).
Proof.
  destruct w as [fs out clk flt]. split.
  - unfold __init__. cbn [String.eqb Ascii.eqb Bool.eqb].
    run_py; eexists _, _; (split; [reflexivity|]); norm_files;
      first [ left; split; [looked_up | reflexivity]
            | right; eexists; split; [reflexivity|];
              first [left; reflexivity | right; looked_up] ].
  - intros Hfmt. unfold __init__. rewrite Hfmt.
    run_py; norm_files;
      first [ left; eexists _, _; split; [reflexivity|]; simp_world;
              split; [looked_up | reflexivity]
            | right; eexists _, _; split; [reflexivity|]; simp_world;
              split; [reflexivity|];
              first [left; reflexivity | right; looked_up] ].
Qed.

(** ** What a stored record holds *)

(** X15.  With every I/O call succeeding and rotation not due, the object
    an admitted call appends has the timestamp of its console line, the name
    of the level and the message, and a [color] entry exactly when colours
    are enabled, whether or not the console sink is: the escape code that
    opens the coloured console line; it has no other entry. *)
Theorem X15_stored_record (self : Logger) (L : Severity) (message : string)
    (w : world) (text : string) (l : list value) :
  faults w = [] ->
  reaches (rank L) (current_level self) = true ->
  log_to_file self = true ->
  rotation_due self w = false ->
  files w !! file_name self = Some text ->
  loads text = Some (VList l) ->
  exists d,
    (files (snd (emit self L message w)) !! file_name self ≫= loads)
      = Some (VList (l ++ [VDict d])) /\
    dict_get "timestamp" d = Some (VStr (timestamp_at w)) /\
    dict_get "level" d = Some (VStr (name L)) /\
    dict_get "message" d = Some (VStr message) /\
    dict_get "color" d =
      (if use_colors self then lookup_key (name L) COLORS ≫= (fun c => Some (VStr c))
       else None) /\
    (forall k, k <> "timestamp"%string -> k <> "level"%string ->
               k <> "message"%string -> k <> "color"%string ->
               dict_get k d = None).
Proof.
  intros Hcalm HL Hfile Hdue Hf Hl.
  rewrite emit_stages, HL, Hfile. unfold bind.
  destruct (after_console_files self L message w) as [Efs Eflt].
  rewrite rotate_not_due_calm;
    [| congruence | now rewrite rotation_due_after_console].
  assert (Hc : faults (after_console self L message w) = []) by congruence.
  rewrite (append_record_array _ _ (after_console self L message w) Hc text l);
    [| now rewrite Efs | exact Hl].
  cbn [snd files set_files]. rewrite lookup_insert_eq. cbn [mbind option_bind].
  rewrite loads_dumps. unfold record. eexists. split; [reflexivity|].
  destruct (use_colors self), L; cbn [app];
    (repeat split; try reflexivity);
    intros k H1 H2 H3 H4; cbn [dict_get];
    apply String.eqb_neq in H1, H2, H3, H4; now rewrite ?H1, ?H2, ?H3, ?H4.
Qed.

(** A json logger with colours and without the console sink. *)
Lemma X15_stored_record_witness :
  let self := {| current_level := Finite 1; log_to_console := false;
                 log_to_file := true; file_name := "log.txt";
                 max_file_size := 0; use_colors := true;
                 log_format := "json" |} in
  let w := {| files := {[ "log.txt"%string := "[]"%string ]};
              stdout := []; clock := []; faults := [] |} in
  exists d,
    (files (snd (emit self ERROR "boom" w)) !! file_name self ≫= loads)
      = Some (VList ([] ++ [VDict d])) /\
    dict_get "timestamp" d = Some (VStr (timestamp_at w)) /\
    dict_get "level" d = Some (VStr (name ERROR)) /\
    dict_get "message" d = Some (VStr "boom") /\
    dict_get "color" d =
      (if use_colors self then lookup_key (name ERROR) COLORS ≫= (fun c => Some (VStr c))
       else None) /\
    (forall k, k <> "timestamp"%string -> k <> "level"%string ->
               k <> "message"%string -> k <> "color"%string ->
               dict_get k d = None).
Proof.
  intros self w.
  apply (X15_stored_record self ERROR "boom" w "[]" []); reflexivity.
Defined.

(** ** A write that fails *)

(** X16.  The file is rewritten whole, so a write that fails costs the
    earlier records.  With rotation off, in an admitted call on a file that
    holds an array, when the read and the [open] for writing succeed and the
    write itself fails, the call prints its notice and returns normally, and
    the file, emptied by the [open], holds nothing; the next admitted call,
    if its I/O succeeds, finds text that is not JSON and leaves the array of
    its own record alone. *)
Theorem X16_failed_write_empties_log (self : Logger) (L : Severity)
    (message : string) (w : world) (text : string) (l : list value)
    (msg : string) :
  reaches (rank L) (current_level self) = true ->
  log_to_file self = true ->
  (max_file_size self <= 0)%Z ->
  files w !! file_name self = Some text ->
  loads text = Some (VList l) ->
  faults w = [None; None; None; Some msg] ->
  exists w',
    emit self L message w = (Return tt, w') /\
    files w' !! file_name self = Some EmptyString /\
    stdout w' =
      stdout w
      ++ (if log_to_console self
          then [console_line self L (timestamp_at w) message] else [])
      ++ [("Error writing to log file: " +:+ msg)%string] /\
    (forall L' message',
       reaches (rank L') (current_level self) = true ->
       exists w'',
         emit self L' message' w' = (Return tt, w'') /\
         (files w'' !! file_name self ≫= loads) =
           Some (VList [record self L' (timestamp_at w') message'])).
Proof.
  intros HL Hfile Hmax Hf Hl Hflt.
  assert (Hoff : (max_file_size self >? 0)%Z = false)
    by (rewrite Z.gtb_ltb; apply Z.ltb_ge; lia).
  assert (Hrot : forall w0, _rotate_file self w0 = (Return tt, w0))
    by (intros; unfold _rotate_file; now rewrite Hoff).
  rewrite emit_stages, HL, Hfile. unfold bind. rewrite Hrot.
  destruct (after_console_files self L message w) as [Efs Eflt].
  pose proof (after_console_stdout self L message w) as Eout.
  destruct (after_console self L message w) as [fs out clk flt].
  cbn [files faults stdout] in Efs, Eflt, Eout. subst fs flt. rewrite Hflt.
  unfold append_record. unfold_py.
  repeat first [rewrite Hf | rewrite Hl | progress simp_world].
  eexists. split; [reflexivity|]. simp_world.
  split; [apply lookup_insert_eq|]. split; [now rewrite Eout, <- app_assoc|].
  intros L' message' HL'. rewrite emit_stages, HL', Hfile. unfold bind.
  rewrite Hrot.
  match goal with
  | |- context [after_console self L' message' ?w0] =>
      destruct (after_console_files self L' message' w0) as [Efs' Eflt'];
      set (w1 := after_console self L' message' w0) in *
  end.
  cbn [files faults] in Efs', Eflt'.
  rewrite (append_record_invalid _ _ w1 Eflt' EmptyString);
    [| rewrite Efs'; apply lookup_insert_eq | reflexivity].
  eexists. split; [reflexivity|]. cbn [files set_files].
  rewrite lookup_insert_eq. cbn. apply loads_dumps.
Qed.

(** A json logger whose file holds two numbers; the fourth I/O call, the
    write, fails. *)
Lemma X16_failed_write_empties_log_witness :
  let self := {| current_level := Finite 1; log_to_console := false;
                 log_to_file := true; file_name := "log.txt";
                 max_file_size := 0; use_colors := false;
                 log_format := "json" |} in
  let w := {| files := {[ "log.txt"%string := "[1, 2]"%string ]};
              stdout := []; clock := [];
              faults := [None; None; None; Some "[Errno 28] ENOSPC"%string] |} in
  exists w',
    emit self ERROR "boom" w = (Return tt, w') /\
    files w' !! file_name self = Some EmptyString /\
    stdout w' =
      stdout w
      ++ (if log_to_console self
          then [console_line self ERROR (timestamp_at w) "boom"] else [])
      ++ [("Error writing to log file: " +:+ "[Errno 28] ENOSPC")%string] /\
    (forall L' message',
       reaches (rank L') (current_level self) = true ->
       exists w'',
         emit self L' message' w' = (Return tt, w'') /\
         (files w'' !! file_name self ≫= loads) =
           Some (VList [record self L' (timestamp_at w') message'])).
Proof.
  intros self w.
  apply (X16_failed_write_empties_log self ERROR "boom" w "[1, 2]"
           [VInt 1; VInt 2] "[Errno 28] ENOSPC");
    first [reflexivity | cbn; lia].
Defined.

End Coverage.
